(** * Shallow embedding of bio-classifier's [app/model_classification.py]
      and the [/classify] handler of [app/app.py].

    Python [str] values are modelled as [list ascii] (the UTF-8 bytes of the
    text).  Case mapping ([str.lower]) is modelled on ASCII letters only and
    the character classes [\w] and [\s] of [re] on single bytes: ASCII
    letters, digits and [_] are word characters, and so is every byte of a
    non-ASCII character.  Whitespace is the ASCII part of [str.isspace]:
    space, [\t \n \x0b \x0c \r] and [\x1c]..[\x1f]. *)

From Stdlib Require Import Ascii String List Bool Arith Lia.
From Stdlib Require Import DecimalString.
From stdpp Require Import base gmap list strings.
Import ListNotations.

Abbreviation str := (list ascii).

(** String literals of the source, as byte lists. *)
Definition s2l (s : string) : str := list_ascii_of_string s.

(** ** Character classes and string methods *)

Definition is_ws (c : ascii) : bool :=
  let n := nat_of_ascii c in
  (n =? 32) || ((9 <=? n) && (n <=? 13)) || ((28 <=? n) && (n <=? 31)).

Definition is_word (c : ascii) : bool :=
  let n := nat_of_ascii c in
  ((48 <=? n) && (n <=? 57)) || ((65 <=? n) && (n <=? 90))
  || ((97 <=? n) && (n <=? 122)) || (n =? 95) || (128 <=? n).

(** [str.lower] on one character. *)
Definition lower_char (c : ascii) : ascii :=
  let n := nat_of_ascii c in
  if (65 <=? n) && (n <=? 90) then ascii_of_nat (n + 32) else c.

Definition lower (s : str) : str := map lower_char s.

(** [str.lstrip()], [str.rstrip()] and [str.strip()] without arguments. *)
Fixpoint lstrip (s : str) : str :=
  match s with
  | [] => []
  | c :: r => if is_ws c then lstrip r else s
  end.

Definition rstrip (s : str) : str := rev (lstrip (rev s)).

Definition strip (s : str) : str := rstrip (lstrip s).

(** [str.startswith]. *)
Fixpoint startswith (s p : str) {struct p} : bool :=
  match p, s with
  | [], _ => true
  | c :: p', d :: s' => Ascii.eqb c d && startswith s' p'
  | _ :: _, [] => false
  end.

(** [p in s] for two strings. *)
Fixpoint contains (p s : str) : bool :=
  startswith s p ||
  match s with
  | [] => false
  | _ :: s' => contains p s'
  end.

(** [str.split()] without arguments: runs of whitespace separate the
    tokens, and no token is empty.  [cur] is the token being read. *)
Fixpoint split_aux (cur : str) (s : str) : list str :=
  match s with
  | [] => match cur with [] => [] | _ => [rev cur] end
  | c :: r =>
      if is_ws c then
        match cur with
        | [] => split_aux [] r
        | _ => rev cur :: split_aux [] r
        end
      else split_aux (c :: cur) r
  end.

Definition split_ws (s : str) : list str := split_aux [] s.

(** [sep.join(parts)]. *)
Fixpoint join (sep : str) (parts : list str) : str :=
  match parts with
  | [] => []
  | [p] => p
  | p :: ps => p ++ sep ++ join sep ps
  end.

(** [re.sub(r"[^\w\s]", " ", s)]: every character that is neither a word
    character nor whitespace becomes a space. *)
Definition sub_non_word (s : str) : str :=
  map (fun c => if is_word c || is_ws c then c else " "%char) s.

(** [str(n)] for a natural number. *)
Definition show_nat (n : nat) : str :=
  s2l (NilZero.string_of_uint (Nat.to_uint n)).

(** ** Python values

    The values the code reads from dictionaries (profile items, the parsed
    JSON record), of the built-in types.  [PBytes b m] is a [bytes] value
    ([m] false) or a [bytearray] ([m] true) holding the bytes [b].
    [POther r t h] is any other value (a number, a boolean, a tuple, a
    list, a dict, ...), carried with the text [str()] prints for it, its
    truth value and its hashing: [h] is [None] for an unhashable value (a
    list, a dict, a set) and otherwise names its class under [==], so that
    [1], [True] and [1.0] carry the same [h]. *)
Inductive pyval :=
  | PStr (s : str)
  | PNone
  | PBytes (b : str) (mutable : bool)
  | POther (repr : str) (truthy : bool) (hkey : option str).

#[global] Instance pyval_eq_dec : EqDecision pyval.
Proof. solve_decision. Defined.

(** A lowercase hexadecimal digit. *)
Definition hex_digit (n : nat) : ascii :=
  ascii_of_nat (if n <? 10 then 48 + n else 87 + n).

(** One byte of [repr(bytes)] between the quotes [q]. *)
Definition bytes_repr_byte (q c : ascii) : str :=
  let n := nat_of_ascii c in
  if (n =? 92) || Ascii.eqb c q then ["\"%char; c]
  else if n =? 9 then s2l "\t"
  else if n =? 10 then s2l "\n"
  else if n =? 13 then s2l "\r"
  else if (n <? 32) || (127 <=? n) then ["\"%char; "x"%char; hex_digit (n / 16); hex_digit (n mod 16)]
  else [c].

(** [repr(b)] of a [bytes] value: single quotes, or double quotes when the
    bytes hold a single quote and no double quote. *)
Definition bytes_repr (b : str) : str :=
  let sq := "'"%char in
  let dq := ascii_of_nat 34 in
  let q := if existsb (Ascii.eqb sq) b && negb (existsb (Ascii.eqb dq) b) then dq else sq in
  ["b"%char; q] ++ flat_map (bytes_repr_byte q) b ++ [q].

(** [str(v)], as used by an f-string. *)
Definition py_str (v : pyval) : str :=
  match v with
  | PStr s => s
  | PNone => s2l "None"
  | PBytes b false => bytes_repr b
  | PBytes b true => s2l "bytearray(" ++ bytes_repr b ++ s2l ")"
  | POther r _ _ => r
  end.

(** A Python dict with string keys. *)
Abbreviation dict := (gmap str pyval).

(** ** Exceptions *)

Inductive outcome (A : Type) :=
  | Ok (a : A)
  | Exn (e : string).
Arguments Ok {A} a.
Arguments Exn {A} e.

Definition obind {A B} (m : outcome A) (k : A -> outcome B) : outcome B :=
  match m with
  | Ok a => k a
  | Exn e => Exn e
  end.

Notation "'let*' x := m 'in' k" := (obind m (fun x => k))
  (at level 200, x name, m at level 100, k at level 200).
Notation "'let*' ' p := m 'in' k" := (obind m (fun x => match x with p => k end))
  (at level 200, p pattern, m at level 100, k at level 200).

(** [d[k]]: a missing key raises [KeyError]. *)
Definition getitem (d : dict) (k : str) : outcome pyval :=
  match d !! k with
  | Some v => Ok v
  | None => Exn "KeyError"
  end.

(** What a dict compares its keys by: two keys are one entry exactly when
    they are [==].  A string equals only the same string, [None] only
    [None], and [bytes] only the same bytes. *)
Inductive pykey :=
  | KStr (s : str)
  | KNone
  | KBytes (b : str)
  | KOther (h : str).

#[global] Instance pykey_eq_dec : EqDecision pykey.
Proof. solve_decision. Defined.

(** Hashing a value used as a dict key: an unhashable value raises
    [TypeError]. *)
Definition py_hash (v : pyval) : outcome pykey :=
  match v with
  | PStr s => Ok (KStr s)
  | PNone => Ok KNone
  | PBytes b false => Ok (KBytes b)
  | PBytes _ true => Exn "TypeError"
  | POther _ _ (Some h) => Ok (KOther h)
  | POther _ _ None => Exn "TypeError"
  end.

(** ** Instruction store (lines 13-112) *)

Definition nl : str := [ascii_of_nat 10].

Definition DEFAULT_PROMPT_HEADER : str :=
  s2l "For each numbered Instagram bio below, reply **yes** or **no**." ++ nl ++ nl.

Definition DEFAULT_PROMPT_FOOTER : str :=
  nl ++ s2l "If the bio does **not** clearly show no affiliation with what we desire, reply **no**."
  ++ nl ++ nl
  ++ s2l "Return a single space-separated list of yes/no in the same order as the bios.".

Definition DEFAULT_CRITERIA_TEXT : str :=
  s2l "**Say yes** if the bio contains an explicit Christian signal – e.g. the words Jesus, Christ, Christian, Bible, a Scripture reference (John 3:16, 1 Cor 13:4-8, etc.), ✝️ cross emoji, 'saved by grace', 'follower of Christ', or similar."
  ++ nl
  ++ s2l "Jesus, Christ, Christian, Bible, a Scripture reference (John 3:16, 1 Cor 13:4-8, etc.), ✝️ cross emoji, 'saved by grace', 'follower of Christ', or similar."
  ++ nl.

(** [_build_full_prompt]: [f"{HEADER}{criteria_text}\n{FOOTER}"]. *)
Definition _build_full_prompt (criteria_text : pyval) : str :=
  DEFAULT_PROMPT_HEADER ++ py_str criteria_text ++ nl ++ DEFAULT_PROMPT_FOOTER.

(** The file [PROMPT_FILE_PATH] as the startup code finds it.  [FUnreadable]
    is any exception of [exists()], [open] or the read; [FInvalidJson] a
    file [json.load] rejects; [FNonObject] a JSON document whose top level
    is not an object.  For such a document every branch of
    [_load_prompt_from_file] ends in the default prompt (an [in] test is
    false or raises [TypeError], and [data[...]] raises), and
    [data.get] raises [AttributeError] in the criteria block, so its
    contents play no role.  [FObject kvs] is a JSON object, with its
    members in file order (the dict keeps the last of duplicate keys). *)
Inductive file_state :=
  | FMissing
  | FUnreadable
  | FInvalidJson
  | FNonObject
  | FObject (kvs : list (str * pyval)).

(** Key lookup in the dict [json.load] builds: the last duplicate wins. *)
Definition obj_get (k : str) (kvs : list (str * pyval)) : option pyval :=
  match find (fun kv => bool_decide (kv.1 = k)) (rev kvs) with
  | Some kv => Some kv.2
  | None => None
  end.

(** [_load_prompt_from_file] (lines 46-63). *)
Definition _load_prompt_from_file (f : file_state) : pyval :=
  match f with
  | FObject kvs =>
      match obj_get (s2l "criteria") kvs with
      | Some c => PStr (_build_full_prompt c)
      | None =>
          match obj_get (s2l "prompt") kvs with
          | Some p => p                                   (* legacy support *)
          | None => PStr (_build_full_prompt (PStr DEFAULT_CRITERIA_TEXT))
          end
      end
  | FMissing | FUnreadable | FInvalidJson | FNonObject =>
      PStr (_build_full_prompt (PStr DEFAULT_CRITERIA_TEXT))
  end.

(** The module-level block of lines 82-89 that sets [_current_criteria]. *)
Definition startup_criteria (f : file_state) : pyval :=
  match f with
  | FObject kvs =>
      match obj_get (s2l "criteria") kvs with
      | Some c => c
      | None => PStr DEFAULT_CRITERIA_TEXT
      end
  | FMissing | FUnreadable | FInvalidJson | FNonObject => PStr DEFAULT_CRITERIA_TEXT
  end.

(** The module's global state: [_current_prompt], [_current_criteria] and
    the file on disk. *)
Record store := mk_store {
  _current_prompt : pyval;
  _current_criteria : pyval;
  prompt_file : file_state
}.

(** Import of the module (lines 81-89).  Both blocks read the same file. *)
Definition startup (f : file_state) : store :=
  {| _current_prompt := _load_prompt_from_file f;
     _current_criteria := startup_criteria f;
     prompt_file := f |}.

Definition get_classification_prompt (st : store) : pyval := _current_prompt st.
Definition get_editable_criteria (st : store) : pyval := _current_criteria st.

(** How a call of [_save_criteria_to_file] ends: the record is written, or an
    exception is caught and the file is left as [SaveFailed f] says
    (untouched when the directory or [open] fails, cut short when
    [json.dump] fails midway). *)
Inductive save_io :=
  | SaveOk
  | SaveFailed (left : file_state).

(** [_save_criteria_to_file] (lines 65-79); [ts] is the [last_updated]
    text. *)
Definition _save_criteria_to_file (io : save_io) (ts : str) (criteria_text : pyval)
    (f : file_state) : bool * file_state :=
  match io with
  | SaveOk =>
      (true, FObject [(s2l "criteria", criteria_text); (s2l "last_updated", PStr ts)])
  | SaveFailed f' => (false, f')
  end.

(** [update_classification_prompt] (lines 99-108); the prints are logging
    only. *)
Definition update_classification_prompt (io : save_io) (ts : str) (new_criteria : str)
    (st : store) : store * pyval :=
  let crit := PStr new_criteria in
  let prompt := PStr (_build_full_prompt crit) in
  let '(_, f') := _save_criteria_to_file io ts crit (prompt_file st) in
  ({| _current_prompt := prompt; _current_criteria := crit; prompt_file := f' |},
   prompt).

(** [reset_to_default_prompt] (lines 110-112). *)
Definition reset_to_default_prompt (io : save_io) (ts : str) (st : store) : store * pyval :=
  update_classification_prompt io ts DEFAULT_CRITERIA_TEXT st.

(** ** Stage 1: keyword heuristics (lines 114-136) *)

Definition CHRISTIAN_WORDS : list str :=
  map s2l
    ["jesus"; "christ"; "christian"; "god"; "lord"; "bible";
     "believer"; "disciple"; "faith"; "saved"; "born again"; "church";
     "worship"].

Definition BIBLE_BOOKS : list str :=
  map s2l
    ["genesis"; "exodus"; "leviticus"; "numbers"; "deuteronomy"; "joshua";
     "judges"; "ruth"; "samuel"; "kings"; "chronicles"; "ezra";
     "nehemiah"; "esther"; "job"; "psalm"; "psalms"; "proverbs";
     "ecclesiastes"; "song"; "songs"; "canticles"; "isaiah"; "jeremiah";
     "lamentations"; "ezekiel"; "daniel"; "hosea"; "joel"; "amos";
     "obadiah"; "jonah"; "micah"; "nahum"; "habakkuk"; "zephaniah";
     "haggai"; "zechariah"; "malachi"; "matthew"; "mark"; "luke";
     "john"; "acts"; "romans"; "corinthians"; "galatians"; "ephesians";
     "philippians"; "colossians"; "thessalonians"; "timothy"; "titus"; "philemon";
     "hebrews"; "james"; "peter"; "jude"; "revelation"; "rev"].

(** [QUICK_KEYWORDS = {"†", ...} | CHRISTIAN_WORDS | BIBLE_BOOKS]; only
    membership matters. *)
Definition QUICK_KEYWORDS : list str :=
  map s2l ["†"; "cross"; "amen"; "agtg"; "jesusfreak"; "bibleverse"]
  ++ CHRISTIAN_WORDS ++ BIBLE_BOOKS.

(** [BIBLE_PATTERN = \b(book|...)(?:'s|s)?\b] with [re.I].  A match starts
    with a letter and ends with a letter, so the boundary before it is the
    start of the text or a non-word character, and the one after it the end
    of the text or a non-word character. *)
Definition bible_suffixes : list str := [s2l "'s"; s2l "s"; []].

(** A match starting right after [pre_rev] (the text before, reversed). *)
Definition bible_match_at (pre_rev rest : str) : bool :=
  match pre_rev with [] => true | c :: _ => negb (is_word c) end &&
  existsb (fun b =>
    existsb (fun x =>
      let w := b ++ x in
      startswith (lower rest) w &&
      match drop (length w) rest with [] => true | c :: _ => negb (is_word c) end)
    bible_suffixes) BIBLE_BOOKS.

Fixpoint bible_search_from (pre_rev s : str) : bool :=
  bible_match_at pre_rev s ||
  match s with
  | [] => false
  | c :: r => bible_search_from (c :: pre_rev) r
  end.

(** [BIBLE_PATTERN.search(bio)] is truthy. *)
Definition bible_search (s : str) : bool := bible_search_from [] s.

(** [has_christian_keywords] (lines 159-162). *)
Definition has_christian_keywords (bio : str) : bool :=
  existsb (fun k => contains k (lower bio)) QUICK_KEYWORDS || bible_search bio.

(** [item["bio"] or ""]: every falsy value gives [""]. *)
Definition raw_bio (item : dict) : outcome str :=
  let* b := getitem item (s2l "bio") in
  match b with
  | PStr s => Ok s
  | PNone => Ok []
  | PBytes [] _ => Ok []
  | PBytes _ _ => Exn "TypeError"     (* .strip() works; re.sub of line 156 raises *)
  | POther _ false _ => Ok []
  | POther _ true _ => Exn "AttributeError"   (* .strip() of a non-string *)
  end.

(** [bio = (item["bio"] or "").strip()] (line 155). *)
Definition bio_of (item : dict) : outcome str :=
  let* b := raw_bio item in Ok (strip b).

(** [quick_results]: the writes to the dict, newest first, each under the
    key its username hashes to; a read finds the newest write of its key. *)
Abbreviation qmap := (list (pykey * str)).

Fixpoint qget (q : qmap) (k : pykey) (dflt : str) : str :=
  match q with
  | [] => dflt
  | (k', v) :: q' => if decide (k' = k) then v else qget q' k dflt
  end.

Definition yes : str := s2l "yes".
Definition no : str := s2l "no".

(** The loop of lines 153-170 over [enumerate(profile_data)] starting at
    index [i]: it returns the writes to [quick_results] (newest first),
    [unsure_bios] and [unsure_indices].  The first item that raises stops the
    loop, as in Python. *)
Fixpoint stage1 (i : nat) (items : list dict) : outcome (qmap * list str * list nat) :=
  match items with
  | [] => Ok ([], [], [])
  | item :: rest =>
      let* uname := getitem item (s2l "username") in
      let* bio := bio_of item in
      let clean := strip (sub_non_word bio) in
      let* key := py_hash uname in           (* quick_results[uname] = ... *)
      let* '(q, ub, ui) := stage1 (S i) rest in
      if has_christian_keywords bio
      then Ok (q ++ [(key, yes)], ub, ui)
      else Ok (q ++ [(key, no)], clean :: ub, i :: ui)
  end.

(** ** Stage 2: the batched remote call (lines 172-242) *)

(** The environment defaults read at import (lines 14-16). *)
Record env := mk_env {
  CLASSIFY_MODEL_DEFAULT : str;
  CLASSIFY_REASONING_EFFORT_DEFAULT : option str;
  CLASSIFY_VERBOSITY_DEFAULT : option str
}.

Definition _ALLOWED_EFFORT : list str := map s2l ["minimal"; "low"; "medium"; "high"].
Definition _ALLOWED_VERBOSITY : list str := map s2l ["low"; "medium"; "high"].

(** [x or y] for optional strings: [None] and [""] are falsy. *)
Definition py_or (x y : option str) : option str :=
  match x with
  | Some (_ :: _) => x
  | _ => y
  end.

(** Lines 182-185 (and 187-190): lower, strip, keep only an allowed value. *)
Definition resolve_enum (allowed : list str) (v : option str) : option str :=
  match v with
  | Some s =>
      let s' := strip (lower s) in
      if existsb (fun a => bool_decide (a = s')) allowed then Some s' else None
  | None => None
  end.

(** [if effort: request_kwargs[...] = ...]. *)
Definition truthy_opt (v : option str) : option str :=
  match v with
  | Some (_ :: _) => v
  | _ => None
  end.

(** The keyword arguments of [client.responses.create]: [reasoning] and
    [text] are present exactly when they are [Some]. *)
Record request := mk_request {
  req_model : str;
  req_input : str;
  req_effort : option str;
  req_verbosity : option str
}.

(** [payload = "\n".join(f"{i+1}) {b}" for i, b in enumerate(unsure_bios))]. *)
Definition build_payload (unsure_bios : list str) : str :=
  join nl (imap (fun i b => show_nat (S i) ++ s2l ") " ++ b) unsure_bios).

(** Lines 177-200. *)
Definition build_request (E : env) (prompt : pyval) (unsure_bios : list str)
    (model reasoning_effort verbosity : option str) : request :=
  let selected_model :=
    strip (match py_or model (Some (CLASSIFY_MODEL_DEFAULT E)) with
           | Some m => m | None => [] end) in
  let effort := resolve_enum _ALLOWED_EFFORT
                  (py_or reasoning_effort (CLASSIFY_REASONING_EFFORT_DEFAULT E)) in
  let verb := resolve_enum _ALLOWED_VERBOSITY
                (py_or verbosity (CLASSIFY_VERBOSITY_DEFAULT E)) in
  {| req_model := selected_model;
     req_input := py_str prompt ++ nl ++ nl ++ build_payload unsure_bios;
     req_effort := truthy_opt effort;
     req_verbosity := truthy_opt verb |}.

(** The remote capability: [None] when [client.responses.create] (or reading
    its reply) raises or times out, [Some t] with [t] the [output_text] the
    code extracts (lines 202-220). *)
Abbreviation remote := (request -> option str).

(** One verdict token (line 230). *)
Definition normalize_flag (f : str) : str :=
  if startswith (lower (strip f)) (s2l "y") then yes else no.

(** [flags] after the [try] block of lines 179-236, for [n] unsure bios. *)
Definition stage2_flags (n : nat) (reply : option str) : list str :=
  match reply with
  | None => repeat no n                                     (* except *)
  | Some output_text =>
      let flags := split_ws (strip output_text) in
      let flags := if length flags =? n then flags else repeat no n in
      map normalize_flag flags
  end.

(** [item["username"]] used as a key of [quick_results]. *)
Definition username_key (item : dict) : outcome pykey :=
  let* u := getitem item (s2l "username") in py_hash u.

(** Lines 239-242: [for i, flag in enumerate(flags)], writing
    [quick_results[profile_data[unsure_indices[i]]["username"]]]. *)
Fixpoint apply_flags (profile_data : list dict) (unsure_indices : list nat)
    (flags : list str) (q : qmap) : outcome qmap :=
  match flags, unsure_indices with
  | [], _ => Ok q
  | _ :: _, [] => Exn "IndexError"
  | flag :: flags', original_index :: ui' =>
      match profile_data !! original_index with
      | None => Exn "IndexError"
      | Some item =>
          let* key := username_key item in
          apply_flags profile_data ui' flags' ((key, lower flag) :: q)
      end
  end.

(** Lines 245-246. *)
Fixpoint attach (q : qmap) (profile_data : list dict) : outcome (list dict) :=
  match profile_data with
  | [] => Ok []
  | item :: rest =>
      let* key := username_key item in
      let* rest' := attach q rest in
      Ok (<[s2l "is_christian" := PStr (qget q key no)]> item :: rest')
  end.

(** Lines 248-249. *)
Fixpoint yes_ids (profile_data : list dict) : outcome (list pyval) :=
  match profile_data with
  | [] => Ok []
  | i :: rest =>
      let* v := getitem i (s2l "is_christian") in
      let* rest' := yes_ids rest in
      if decide (v = PStr yes)
      then let* u := getitem i (s2l "username") in Ok (u :: rest')
      else Ok rest'
  end.

(** What a call of [classify_profiles] produces: the requests sent to the
    remote capability, the items as the call leaves them (the dicts are
    mutated in place) and the returned list. *)
Record result := mk_result {
  calls : list request;
  items_after : list dict;
  returned : list pyval
}.

(** [classify_profiles] (lines 138-249), reading the store for
    [get_classification_prompt()].  When it raises, stage 1 raised, before
    any remote call and before any item is written. *)
Definition classify_profiles (E : env) (rem : remote) (profile_data : list dict)
    (model reasoning_effort verbosity : option str) (st : store) : outcome result :=
  let* '(q, unsure_bios, unsure_indices) := stage1 0 profile_data in
  let* '(cs, q') :=
    match unsure_bios with
    | [] => Ok ([], q)
    | _ :: _ =>
        let req := build_request E (get_classification_prompt st) unsure_bios
                     model reasoning_effort verbosity in
        let flags := stage2_flags (length unsure_bios) (rem req) in
        let* q' := apply_flags profile_data unsure_indices flags q in
        Ok ([req], q')
    end in
  let* items' := attach q' profile_data in
  let* ids := yes_ids items' in
  Ok {| calls := cs; items_after := items'; returned := ids |}.

(** ** The reply text (lines 202-220) *)











(** ** The [/classify] handler (app.py, lines 27-46) *)

Section ClassifyHandler.
Context {A : Type}.
(** The classification the handler runs; it reads the store and may
    raise. *)
Variable run : store -> outcome A.

(** [req.criteria and isinstance(req.criteria, str) and req.criteria.strip()]. *)
Definition override_given (criteria : option str) : bool :=
  match criteria with
  | Some c => match strip c with [] => false | _ => true end
  | None => false
  end.

(** The store after the [try] part sets the override, the run, and the
    store after [finally] restores the two globals.  The run's outcome,
    an exception included, is passed on. *)
Definition classify_handler (criteria : option str) (st : store) : store * outcome A :=
  match criteria with
  | Some c =>
      if override_given criteria then
        let original_criteria := _current_criteria st in
        let original_prompt := _current_prompt st in
        (* mc._current_criteria = req.criteria;
           mc._current_prompt = mc._build_full_prompt(req.criteria) *)
        let st2 := {| _current_prompt := PStr (_build_full_prompt (PStr c));
                      _current_criteria := PStr c;
                      prompt_file := prompt_file st |} in
        let out := run st2 in
        ({| _current_prompt := original_prompt;
            _current_criteria := original_criteria;
            prompt_file := prompt_file st2 |}, out)
      else (st, run st)
  | None => (st, run st)
  end.
End ClassifyHandler.

(** The payload the handler builds:
    [[{"username": str(i), "bio": b} for i, b in enumerate(req.bios)]]. *)
Definition handler_payload (bios : list str) : list dict :=
  imap (fun i b => <[s2l "bio" := PStr b]> (<[s2l "username" := PStr (show_nat i)]> ∅))
    bios.

(** ** Predicates used to state the properties *)

(** The text contains [k] ignoring ASCII case. *)
Definition keyword_in (t : str) : Prop :=
  ∃ k, k ∈ QUICK_KEYWORDS ∧ ∃ a b, lower t = a ++ k ++ b.

(** A whole-word occurrence of a Bible book in the text, with an optional
    ['s] or [s], ignoring ASCII case. *)
Definition bible_word_in (t : str) : Prop :=
  ∃ pre w post b x, t = pre ++ w ++ post ∧ b ∈ BIBLE_BOOKS ∧ x ∈ bible_suffixes ∧
    lower w = b ++ x ∧
    (pre = [] ∨ ∃ pre' c, pre = pre' ++ [c] ∧ is_word c = false) ∧
    (post = [] ∨ ∃ c post', post = c :: post' ∧ is_word c = false).

(** The text starts and ends with a non-whitespace character. *)
Definition edges_non_ws (k : str) : bool :=
  match k, rev k with
  | c :: _, d :: _ => negb (is_ws c) && negb (is_ws d)
  | _, _ => false
  end.

(** The item is resolved to yes by stage 1, or left unresolved. *)
Definition resolved (it : dict) : Prop :=
  ∃ b, bio_of it = Ok b ∧ has_christian_keywords b = true.
Definition unresolved (it : dict) : Prop :=
  ∃ b, bio_of it = Ok b ∧ has_christian_keywords b = false.

(** The item has the keys the code reads: a hashable ["username"], and a
    ["bio"] that is a string or falsy. *)
Definition wf_item (it : dict) : Prop :=
  (∃ k, username_key it = Ok k) ∧ ∃ b, raw_bio it = Ok b.

(** The key of [quick_results] the item's username is stored under, when
    the item has a hashable username. *)
Definition item_key (it : dict) : option pykey :=
  match username_key it with Ok k => Some k | Exn _ => None end.

(** The text is ASCII.  On ASCII text the model's case mapping and
    character classes are exactly Python's [str.lower], [\w], [\s],
    [str.strip] and [re.I]. *)
Definition is_ascii (s : str) : bool := forallb (fun c => nat_of_ascii c <? 128) s.

(** Every bio of the batch that the code reads as a string is ASCII. *)
Definition ascii_bios (data : list dict) : Prop :=
  Forall (λ it, ∀ b, raw_bio it = Ok b → is_ascii b = true) data.

(** The verdict written to an item. *)
Definition verdict (it : dict) : option pyval := it !! s2l "is_christian".

(** What the returned list should be: the usernames of the items whose
    ["is_christian"] is ["yes"], in order. *)
Fixpoint yes_usernames (items : list dict) : list pyval :=
  match items with
  | [] => []
  | it :: rest =>
      if decide (verdict it = Some (PStr yes))
      then match it !! s2l "username" with
           | Some u => u :: yes_usernames rest
           | None => yes_usernames rest
           end
      else yes_usernames rest
  end.

(** The invariant of the store: the full prompt is derived from the
    criteria. *)
Definition prompt_derived (st : store) : Prop :=
  _current_prompt st = PStr (_build_full_prompt (_current_criteria st)).

(** A legacy record: an object with a ["prompt"] member and no
    ["criteria"] member. *)
Definition legacy_record (f : file_state) : Prop :=
  match f with
  | FObject kvs => obj_get (s2l "criteria") kvs = None ∧ is_Some (obj_get (s2l "prompt") kvs)
  | _ => False
  end.

(** The stage-2 reply is rejected for [n] unsure bios: the call raised,
    returned no content, or the token count is not [n]. *)
Definition reply_rejected (n : nat) (reply : option str) : Prop :=
  reply = None ∨
  (∃ t, reply = Some t ∧ split_ws (strip t) = []) ∨
  (∃ t, reply = Some t ∧ length (split_ws (strip t)) ≠ n).

(** The store the handler's run sees under the override [c]. *)
Definition override_store (c : str) (st : store) : store :=
  {| _current_prompt := PStr (_build_full_prompt (PStr c));
     _current_criteria := PStr c;
     prompt_file := prompt_file st |}.

(** The record [_save_criteria_to_file] writes. *)
Definition saved_record (c ts : str) : file_state :=
  FObject [(s2l "criteria", PStr c); (s2l "last_updated", PStr ts)].

(** Whether stage 1 leaves the item unresolved, and how many it leaves. *)
Definition is_unresolved (it : dict) : bool :=
  match bio_of it with
  | Ok b => negb (has_christian_keywords b)
  | Exn _ => false
  end.

Definition n_unresolved (data : list dict) : nat := length (List.filter is_unresolved data).

(** ** Sample inputs *)

Definition sample_env : env := mk_env (s2l "gpt-5-mini") None None.

Definition sample_store : store := startup FMissing.

(** The payload [/classify] builds for three bios; the second is left
    unresolved by stage 1. *)
Definition sample_data : list dict :=
  handler_payload (map s2l ["John 3:16 is my favorite verse"; "just a dog mom"; "amen"]).

Definition sample_item1 : dict :=
  <[s2l "bio" := PStr (s2l "just a dog mom")]> (<[s2l "username" := PStr (s2l "1")]> ∅).

Definition remote_fails : remote := fun _ => None.
Definition remote_yes : remote := fun _ => Some (s2l " Yes ").

(** Two items with the same username: the first matches stage 1, the
    second does not. *)
Definition sample_dup_data : list dict :=
  [<[s2l "bio" := PStr (s2l "amen")]> (<[s2l "username" := PStr (s2l "ana")]> ∅);
   <[s2l "bio" := PStr (s2l "just a dog mom")]> (<[s2l "username" := PStr (s2l "ana")]> ∅)].

(** An item whose bio is a truthy value that is not a string. *)
Definition sample_bad_item : dict :=
  <[s2l "bio" := POther (s2l "5") true (Some (s2l "5"))]> (<[s2l "username" := PStr (s2l "x")]> ∅).

(** * Properties *)

Example split_ws_ex :
  split_ws (s2l " yes  No y ") = [s2l "yes"; s2l "No"; s2l "y"].
Proof. reflexivity. Qed.

Example strip_ex : strip (s2l "  a b ") = s2l "a b".
Proof. reflexivity. Qed.

Example show_nat_ex : show_nat 12 = s2l "12".
Proof. reflexivity. Qed.

Example keyword_match_ex :
  has_christian_keywords (s2l "Psalm's reader") = true ∧
  has_christian_keywords (s2l "just a dog mom") = false.
Proof. split; reflexivity. Qed.

(** ** Strings *)

Lemma startswith_app (p s : str) : startswith (p ++ s) p = true.
Proof.
  induction p as [|c p IH]; simpl; [reflexivity|].
  rewrite Ascii.eqb_refl. exact IH.
Qed.

Lemma contains_app (a p b : str) : contains p (a ++ p ++ b) = true.
Proof.
  induction a as [|c a IH]; simpl.
  - destruct (p ++ b) eqn:E; simpl.
    + destruct p; [reflexivity|discriminate].
    + rewrite <- E, startswith_app. reflexivity.
  - rewrite IH. apply orb_true_r.
Qed.

Lemma is_ws_lower_char (c : ascii) : is_ws (lower_char c) = is_ws c.
Proof. destruct c as [[] [] [] [] [] [] [] []]; reflexivity. Qed.

Lemma lstrip_keeps (a k b : str) (c : ascii) :
  is_ws c = false → ∃ a', lstrip (a ++ c :: k ++ b) = a' ++ c :: k ++ b.
Proof.
  intros Hc. induction a as [|x a IH]; simpl.
  - rewrite Hc. exists []. reflexivity.
  - destruct (is_ws x).
    + exact IH.
    + exists (x :: a). reflexivity.
Qed.

Lemma rstrip_keeps (a k b : str) (d : ascii) :
  is_ws d = false → ∃ b', rstrip (a ++ k ++ d :: b) = a ++ k ++ d :: b'.
Proof.
  intros Hd. unfold rstrip.
  replace (rev (a ++ k ++ d :: b)) with (rev b ++ d :: rev k ++ rev a)
    by (rewrite !rev_app_distr; simpl; rewrite <- !app_assoc; reflexivity).
  destruct (lstrip_keeps (rev b) (rev k ++ rev a) [] d Hd) as [b' Hb'].
  rewrite app_nil_r in Hb'. rewrite Hb'.
  exists (rev b'). rewrite rev_app_distr. simpl.
  rewrite rev_app_distr, !rev_involutive, <- !app_assoc. reflexivity.
Qed.

(** Stripping keeps an inner piece that starts and ends with non-whitespace. *)
Lemma strip_keeps (a m b : str) :
  (∃ c m', m = c :: m' ∧ is_ws c = false) →
  (∃ d r, rev m = d :: r ∧ is_ws d = false) →
  ∃ a' b', strip (a ++ m ++ b) = a' ++ m ++ b'.
Proof.
  intros [c [m' [-> Hc]]] [d [r [Hr Hd]]].
  destruct (lstrip_keeps a m' b c Hc) as [a' Ha'].
  unfold strip. change ((c :: m') ++ b) with (c :: m' ++ b). rewrite Ha'.
  assert (Hm : c :: m' = rev r ++ [d]).
  { rewrite <- (rev_involutive (c :: m')), Hr. reflexivity. }
  rewrite app_comm_cons, Hm, <- app_assoc. simpl.
  destruct (rstrip_keeps a' (rev r) b d Hd) as [b' Hb'].
  rewrite Hb'. exists a', b'. rewrite <- !app_assoc. reflexivity.
Qed.

(** ** Stage 1 *)

(** No keyword starts or ends with whitespace. *)
Lemma quick_keyword_edges (k : str) :
  k ∈ QUICK_KEYWORDS →
  (∃ c k', k = c :: k' ∧ is_ws c = false) ∧ (∃ d r, rev k = d :: r ∧ is_ws d = false).
Proof.
  intros Hk.
  assert (Hall : forallb edges_non_ws QUICK_KEYWORDS = true) by (vm_compute; reflexivity).
  rewrite forallb_forall in Hall. apply list_elem_of_In, Hall in Hk.
  unfold edges_non_ws in Hk.
  destruct k as [|c k']; [discriminate|]. destruct (rev (c :: k')) as [|d r] eqn:Hr; [discriminate|].
  apply andb_true_iff in Hk as [Hc Hd]. apply negb_true_iff in Hc, Hd.
  split; eauto.
Qed.

Lemma bible_books_quick (b : str) : b ∈ BIBLE_BOOKS → b ∈ QUICK_KEYWORDS.
Proof.
  intros Hb. unfold QUICK_KEYWORDS. rewrite !elem_of_app. right; right. exact Hb.
Qed.

Lemma lower_app (a b : str) : lower (a ++ b) = lower a ++ lower b.
Proof. apply map_app. Qed.

Lemma bible_word_keyword (t : str) : bible_word_in t → keyword_in t.
Proof.
  intros (pre & w & post & b & x & -> & Hb & _ & Hw & _ & _).
  exists b. split; [apply bible_books_quick, Hb|].
  exists (lower pre), (x ++ lower post).
  rewrite !lower_app, Hw, <- app_assoc. reflexivity.
Qed.

(** A keyword in the text, or a whole-word Bible book, makes the stage-1
    test of the stripped text true. *)
Lemma keyword_stage1 (t : str) :
  keyword_in t ∨ bible_word_in t → has_christian_keywords (strip t) = true.
Proof.
  intros H. assert (Hk : keyword_in t) by (destruct H; [assumption | apply bible_word_keyword; assumption]).
  clear H. destruct Hk as (k & Hk & a & b & Ht).
  destruct (quick_keyword_edges k Hk) as [(c & k' & Hck & Hc) (d & r & Hdr & Hd)].
  unfold lower in Ht.
  apply map_eq_app in Ht as (A & T1 & -> & HA & HT1).
  apply map_eq_app in HT1 as (K & B & -> & HK & HB).
  assert (Hedge1 : ∃ C K', K = C :: K' ∧ is_ws C = false).
  { rewrite Hck in HK. apply map_eq_cons in HK as (C & K' & -> & HC & _).
    exists C, K'. split; [reflexivity|]. rewrite <- is_ws_lower_char, HC. exact Hc. }
  assert (Hedge2 : ∃ D R, rev K = D :: R ∧ is_ws D = false).
  { assert (Hrev : map lower_char (rev K) = d :: r) by (rewrite map_rev, HK; exact Hdr).
    apply map_eq_cons in Hrev as (D & R & HR & HD & _).
    exists D, R. split; [exact HR|]. rewrite <- is_ws_lower_char, HD. exact Hd. }
  destruct (strip_keeps A K B Hedge1 Hedge2) as (A' & B' & Hs).
  unfold has_christian_keywords. rewrite Hs.
  apply orb_true_intro. left.
  apply existsb_exists. exists k. split; [apply list_elem_of_In, Hk|].
  rewrite !lower_app. unfold lower at 2. rewrite HK. apply contains_app.
Qed.

(** Inverting a chain of [let*] that ended in [Ok]. *)
Ltac ok_inv H :=
  repeat match type of H with
  | obind ?m _ = Ok _ =>
      let Hm := fresh "Hm" in
      destruct m eqn:Hm; cbn [obind] in H; [|discriminate H]
  end.

Lemma username_key_inv (it : dict) (k : pykey) :
  username_key it = Ok k → ∃ u, it !! s2l "username" = Some u ∧ py_hash u = Ok k.
Proof.
  unfold username_key, getitem. destruct (it !! s2l "username") as [u|]; cbn [obind];
    [eauto|discriminate].
Qed.

Lemma bio_of_raw (it : dict) (b : str) : bio_of it = Ok b → ∃ r, raw_bio it = Ok r ∧ b = strip r.
Proof.
  unfold bio_of. intros H. ok_inv H. injection H as <-. eauto.
Qed.

Lemma resolved_unresolved (it : dict) : resolved it → unresolved it → False.
Proof.
  intros (b & Hb & Hy) (b' & Hb' & Hn). rewrite Hb in Hb'. injection Hb' as <-.
  congruence.
Qed.

Lemma stage1_spec (items : list dict) (i : nat) (q : qmap) (ub : list str) (ui : list nat) :
  stage1 i items = Ok (q, ub, ui) →
  Forall wf_item items ∧
  length ub = length ui ∧
  (∀ j, j ∈ ui ↔ i ≤ j ∧ ∃ it, items !! (j - i) = Some it ∧ unresolved it) ∧
  (ub = [] ↔ Forall resolved items) ∧
  Forall (λ kv, kv.2 = yes ∨ kv.2 = no) q.
Proof.
  revert i q ub ui. induction items as [|it rest IH]; intros i q ub ui H.
  - cbn in H. injection H as <- <- <-.
    split; [constructor|]. split; [reflexivity|]. split.
    + intros j. split; [intros Hj; apply elem_of_nil in Hj; contradiction|].
      intros [_ [it [Hit _]]]. rewrite lookup_nil in Hit. discriminate.
    + split; [split; constructor|constructor].
  - cbn [stage1] in H. ok_inv H.
    destruct a2 as [[q0 ub0] ui0].
    destruct (IH _ _ _ _ Hm2) as (Hwf & Hlen & Hmem & Hnil & Hq).
    assert (Hwf1 : wf_item it).
    { apply bio_of_raw in Hm0 as (r & Hr & _). split; [|eauto].
      exists a1. unfold username_key. rewrite Hm. exact Hm1. }
    destruct (has_christian_keywords a0) eqn:Hk; injection H as <- <- <-.
    + split; [constructor; assumption|]. split; [exact Hlen|]. split; [|split].
      * intros j. rewrite Hmem. split.
        -- intros [Hij [it' [Hit' Hu']]]. split; [lia|].
           exists it'. replace (j - i) with (S (j - S i)) by lia. auto.
        -- intros [Hij [it' [Hit' Hu']]].
           destruct (j - i) as [|m] eqn:Hji.
           ++ cbn in Hit'. injection Hit' as <-. exfalso.
              apply (resolved_unresolved it); [exists a0; auto | exact Hu'].
           ++ split; [lia|]. exists it'. replace (j - S i) with m by lia. auto.
      * rewrite Hnil. split.
        -- intros Hr. constructor; [exists a0; auto | exact Hr].
        -- intros Hr. inversion Hr; assumption.
      * apply Forall_app. split; [exact Hq|]. constructor; [left; reflexivity|constructor].
    + split; [constructor; assumption|]. split; [cbn; rewrite Hlen; reflexivity|]. split; [|split].
      * intros j. rewrite elem_of_cons, Hmem. split.
        -- intros [->|[Hij [it' [Hit' Hu']]]].
           ++ split; [lia|]. exists it. rewrite Nat.sub_diag. split; [reflexivity|].
              exists a0. auto.
           ++ split; [lia|]. exists it'. replace (j - i) with (S (j - S i)) by lia. auto.
        -- intros [Hij [it' [Hit' Hu']]].
           destruct (j - i) as [|m] eqn:Hji; [left; lia|].
           right. split; [lia|]. exists it'. replace (j - S i) with m by lia. auto.
      * split; [discriminate|]. intros Hr. inversion Hr as [|? ? [b [Hb Hy]] _]; subst.
        rewrite Hm0 in Hb. injection Hb as <-. congruence.
      * apply Forall_app. split; [exact Hq|]. constructor; [right; reflexivity|constructor].
Qed.

Lemma stage1_total (items : list dict) (i : nat) :
  Forall wf_item items → ∃ q ub ui, stage1 i items = Ok (q, ub, ui).
Proof.
  revert i. induction items as [|it rest IH]; intros i Hwf.
  - eauto.
  - inversion Hwf as [|? ? [[k Hk] [r Hr]] Hwf']; subst.
    destruct (username_key_inv _ _ Hk) as (u & Hu & Hh).
    destruct (IH (S i) Hwf') as (q & ub & ui & Hs).
    cbn [stage1]. unfold getitem at 1. rewrite Hu. cbn [obind].
    unfold bio_of. rewrite Hr. cbn [obind]. rewrite Hh. cbn [obind]. rewrite Hs. cbn [obind].
    destruct (has_christian_keywords (strip r)); eauto.
Qed.

(** ** Stage 2 and the merge *)

Lemma normalize_flag_yes_no (f : str) : normalize_flag f = yes ∨ normalize_flag f = no.
Proof. unfold normalize_flag. destruct (startswith _ _); auto. Qed.

Lemma stage2_flags_length (n : nat) (reply : option str) : length (stage2_flags n reply) = n.
Proof.
  destruct reply as [t|]; cbn; [|apply repeat_length].
  rewrite length_map. destruct (length (split_ws (strip t)) =? n) eqn:E.
  - apply Nat.eqb_eq, E.
  - apply repeat_length.
Qed.

Lemma stage2_flags_yes_no (n : nat) (reply : option str) :
  Forall (λ f, f = yes ∨ f = no) (stage2_flags n reply).
Proof.
  destruct reply as [t|]; cbn.
  - apply Forall_forall. intros f Hf. apply list_elem_of_In, in_map_iff in Hf as (g & <- & _).
    apply normalize_flag_yes_no.
  - apply Forall_forall. intros f Hf. apply list_elem_of_In, repeat_spec in Hf. auto.
Qed.

Lemma stage2_flags_rejected (n : nat) (reply : option str) :
  0 < n → reply_rejected n reply → stage2_flags n reply = repeat no n.
Proof.
  intros Hn [->|[(t & -> & Ht)|(t & -> & Ht)]]; cbn; [reflexivity| |].
  - rewrite Ht. destruct n as [|n]; [lia|]. cbn [length Nat.eqb].
    rewrite map_repeat. reflexivity.
  - apply Nat.eqb_neq in Ht. rewrite Ht, map_repeat. reflexivity.
Qed.

Lemma lower_yes_no (f : str) : f = yes ∨ f = no → lower f = f.
Proof. intros [->| ->]; reflexivity. Qed.

Lemma apply_flags_spec (data : list dict) (ui : list nat) (flags : list str) (q : qmap) :
  Forall wf_item data → (∀ j, j ∈ ui → j < length data) → length flags = length ui →
  ∃ W, apply_flags data ui flags q = Ok (W ++ q) ∧
    Forall (λ kv, ∃ f, f ∈ flags ∧ kv.2 = lower f) W ∧
    (∀ j it k, j ∈ ui → data !! j = Some it → username_key it = Ok k →
       ∃ v, (k, v) ∈ W).
Proof.
  intros Hwf. revert flags q. induction ui as [|j ui IH]; intros flags q Hj Hlen.
  - destruct flags; [|discriminate]. exists []. split; [reflexivity|]. split; [constructor|].
    intros j it k Hin. apply elem_of_nil in Hin. contradiction.
  - destruct flags as [|f flags]; [discriminate|]. cbn in Hlen. injection Hlen as Hlen.
    assert (Hjl : j < length data) by (apply Hj; left).
    destruct (lookup_lt_is_Some_2 data j Hjl) as [it Hit].
    pose proof (proj1 (Forall_lookup _ _) Hwf j it Hit) as [[u Hu] _].
    destruct (IH flags ((u, lower f) :: q)) as (W & HW & Hvals & Hkeys).
    { intros j' Hj'. apply Hj. right. exact Hj'. }
    { exact Hlen. }
    exists (W ++ [(u, lower f)]). split; [|split].
    + cbn [apply_flags]. rewrite Hit, Hu. cbn [obind]. rewrite HW.
      rewrite <- app_assoc. reflexivity.
    + apply Forall_app. split.
      * eapply Forall_impl; [exact Hvals|]. intros kv (g & Hg & Hkv). exists g.
        split; [right; exact Hg | exact Hkv].
      * constructor; [|constructor]. exists f. split; [left|reflexivity].
    + intros j' it' u' Hin Hit' Hu'. apply elem_of_cons in Hin as [->|Hin].
      * rewrite Hit in Hit'. injection Hit' as <-. rewrite Hu in Hu'. injection Hu' as <-.
        exists (lower f). apply elem_of_app. right. left.
      * destruct (Hkeys j' it' u' Hin Hit' Hu') as [v Hv]. exists v.
        apply elem_of_app. left. exact Hv.
Qed.

Lemma qget_app_found (W q : qmap) (u : pykey) (d : str) :
  (∃ v, (u, v) ∈ W) → ∃ v, (u, v) ∈ W ∧ qget (W ++ q) u d = v.
Proof.
  induction W as [|[k v] W IH]; intros [v0 Hv0].
  - apply elem_of_nil in Hv0. contradiction.
  - cbn. destruct (decide (k = u)) as [->|Hne].
    + exists v. split; [left|reflexivity].
    + apply elem_of_cons in Hv0 as [Heq|Hv0]; [injection Heq as -> ->; contradiction|].
      destruct IH as (v1 & Hv1 & Hq); [eauto|]. exists v1. split; [right; exact Hv1|exact Hq].
Qed.

Lemma qget_yes_no (q : qmap) (u : pykey) :
  Forall (λ kv, kv.2 = yes ∨ kv.2 = no) q → qget q u no = yes ∨ qget q u no = no.
Proof.
  induction q as [|[k v] q IH]; intros Hq; cbn; [auto|].
  inversion Hq; subst. destruct (decide (k = u)); auto.
Qed.

Lemma attach_spec (q : qmap) (data : list dict) :
  Forall wf_item data →
  ∃ items', attach q data = Ok items' ∧
    Forall2 (λ it it', ∃ k, username_key it = Ok k ∧
                            it' = <[s2l "is_christian" := PStr (qget q k no)]> it) data items'.
Proof.
  induction data as [|it data IH]; intros Hwf; [exists []; split; constructor|].
  inversion Hwf as [|? ? [[u Hu] _] Hwf']; subst.
  destruct (IH Hwf') as (items' & Ha & H2).
  exists (<[s2l "is_christian" := PStr (qget q u no)]> it :: items'). split.
  - cbn [attach]. rewrite Hu. cbn [obind]. rewrite Ha. reflexivity.
  - constructor; [eauto|exact H2].
Qed.

Lemma yes_ids_spec (items : list dict) :
  Forall (λ it, is_Some (verdict it) ∧ is_Some (it !! s2l "username")) items →
  yes_ids items = Ok (yes_usernames items).
Proof.
  induction items as [|it items IH]; intros H; [reflexivity|].
  inversion H as [|? ? [[v Hv] [u Hu]] H']; subst.
  cbn [yes_ids]. unfold getitem at 1. unfold verdict in Hv. rewrite Hv. cbn [obind]. rewrite (IH H').
  cbn [obind yes_usernames]. unfold verdict. rewrite Hv.
  destruct (decide (v = PStr yes)) as [->|Hne].
  - rewrite decide_True by reflexivity. unfold getitem. rewrite Hu. reflexivity.
  - rewrite decide_False by congruence. reflexivity.
Qed.

(** ** [classify_profiles] end to end *)

Lemma is_christian_ne_username : s2l "is_christian" ≠ s2l "username".
Proof. discriminate. Qed.

Lemma attached_keys (q : qmap) (data items' : list dict) :
  Forall2 (λ it it', ∃ k, username_key it = Ok k ∧
                          it' = <[s2l "is_christian" := PStr (qget q k no)]> it) data items' →
  Forall (λ it, is_Some (verdict it) ∧ is_Some (it !! s2l "username")) items'.
Proof.
  induction 1 as [|it it' data items' (k & Hk & ->) _ IH]; constructor; [|exact IH].
  destruct (username_key_inv _ _ Hk) as (u & Hu & _).
  unfold verdict. rewrite lookup_insert_eq, lookup_insert_ne by apply is_christian_ne_username.
  rewrite Hu. split; eexists; reflexivity.
Qed.

Lemma classify_wf (E : env) (rem : remote) (data : list dict) (m e v : option str)
    (st : store) (r : result) :
  classify_profiles E rem data m e v st = Ok r → Forall wf_item data.
Proof.
  unfold classify_profiles. intros H. ok_inv H. destruct a as [[q ub] ui].
  exact (proj1 (stage1_spec _ _ _ _ _ Hm)).
Qed.

Lemma classify_spec (E : env) (rem : remote) (data : list dict) (m e v : option str)
    (st : store) :
  Forall wf_item data →
  ∃ q ub ui r q',
    stage1 0 data = Ok (q, ub, ui) ∧
    classify_profiles E rem data m e v st = Ok r ∧
    calls r = match ub with
              | [] => []
              | _ :: _ => [build_request E (get_classification_prompt st) ub m e v]
              end ∧
    (ub = [] → q' = q) ∧
    (ub ≠ [] →
       ∃ W, q' = W ++ q ∧
         Forall (λ kv, ∃ f, f ∈ stage2_flags (length ub)
                                 (rem (build_request E (get_classification_prompt st) ub m e v))
                          ∧ kv.2 = lower f) W ∧
         (∀ j it k, j ∈ ui → data !! j = Some it → username_key it = Ok k →
            ∃ v, (k, v) ∈ W)) ∧
    Forall (λ kv, kv.2 = yes ∨ kv.2 = no) q' ∧
    Forall2 (λ it it', ∃ k, username_key it = Ok k ∧
                            it' = <[s2l "is_christian" := PStr (qget q' k no)]> it)
      data (items_after r) ∧
    returned r = yes_usernames (items_after r).
Proof.
  intros Hwf.
  destruct (stage1_total data 0 Hwf) as (q & ub & ui & Hs).
  destruct (stage1_spec _ _ _ _ _ Hs) as (_ & Hlen & Hmem & _ & Hq).
  unfold classify_profiles. rewrite Hs. cbn [obind].
  destruct ub as [|b ub'].
  - cbn [obind]. destruct (attach_spec q data Hwf) as (items' & Ha & H2).
    rewrite Ha. cbn [obind]. rewrite (yes_ids_spec items' (attached_keys _ _ _ H2)).
    cbn [obind].
    eexists q, [], ui, _, q. split; [reflexivity|]. split; [reflexivity|].
    split; [reflexivity|]. split; [auto|]. split; [intros []; reflexivity|].
    split; [exact Hq|]. split; [exact H2|reflexivity].
  - set (req := build_request E (get_classification_prompt st) (b :: ub') m e v).
    set (flags := stage2_flags (length (b :: ub')) (rem req)).
    destruct (apply_flags_spec data ui flags q Hwf) as (W & HW & Hvals & Hkeys).
    { intros j Hj. apply Hmem in Hj as [_ [it [Hit _]]]. rewrite Nat.sub_0_r in Hit.
      apply lookup_lt_Some in Hit. exact Hit. }
    { unfold flags. rewrite stage2_flags_length. exact Hlen. }
    cbn [obind]. fold req. fold flags. rewrite HW. cbn [obind].
    destruct (attach_spec (W ++ q) data Hwf) as (items' & Ha & H2).
    rewrite Ha. cbn [obind]. rewrite (yes_ids_spec items' (attached_keys _ _ _ H2)).
    cbn [obind].
    eexists q, (b :: ub'), ui, _, (W ++ q). split; [reflexivity|]. split; [reflexivity|].
    split; [reflexivity|]. split; [discriminate|]. split.
    + intros _. exists W. split; [reflexivity|]. split; [exact Hvals|]. exact Hkeys.
    + split; [|split; [exact H2|reflexivity]].
      apply Forall_app. split; [|exact Hq].
      eapply Forall_impl; [exact Hvals|]. intros kv (f & Hf & ->).
      pose proof (proj1 (Forall_forall _ _) (stage2_flags_yes_no _ _) f Hf) as Hyn.
      rewrite lower_yes_no by exact Hyn. exact Hyn.
Qed.

Lemma handler_payload_wf (bios : list str) : Forall wf_item (handler_payload bios).
Proof.
  apply Forall_lookup. intros i it Hit. unfold handler_payload in Hit.
  rewrite list_lookup_imap in Hit. destruct (bios !! i) as [b|]; [|discriminate].
  injection Hit as <-. split.
  - exists (KStr (show_nat i)). unfold username_key, getitem.
    rewrite lookup_insert_ne by discriminate. rewrite lookup_insert_eq. reflexivity.
  - exists b. unfold raw_bio, getitem. rewrite lookup_insert_eq. reflexivity.
Qed.

Lemma stage1_count (items : list dict) (i : nat) (q : qmap) (ub : list str) (ui : list nat) :
  stage1 i items = Ok (q, ub, ui) → length ub = length (List.filter is_unresolved items).
Proof.
  revert i q ub ui. induction items as [|it rest IH]; intros i q ub ui H.
  - cbn in H. injection H as <- <- <-. reflexivity.
  - cbn [stage1] in H. ok_inv H. destruct a2 as [[q0 ub0] ui0].
    pose proof (IH _ _ _ _ Hm2) as Hc.
    cbn [List.filter]. unfold is_unresolved at 1. rewrite Hm0.
    destruct (has_christian_keywords a0); injection H as <- <- <-; cbn; [exact Hc|].
    rewrite Hc. reflexivity.
Qed.

(** ** C1: verdicts and the returned list *)

(** C1. On every batch of well-formed items (a hashable username, and a
    bio that is a string or falsy) the call returns normally, every item
    ends with exactly one verdict, ["yes"] or ["no"], written on it, and the
    returned list is the usernames of the items whose verdict is ["yes"],
    in input order, so a sublist of the input usernames. *)
Theorem classify_verdicts_and_ids (E : env) (rem : remote) (data : list dict)
    (m e v : option str) (st : store) :
  Forall wf_item data →
  ∃ r, classify_profiles E rem data m e v st = Ok r ∧
    Forall2 (λ it it', ∃ w, (w = yes ∨ w = no) ∧
                            it' = <[s2l "is_christian" := PStr w]> it) data (items_after r) ∧
    returned r = yes_usernames (items_after r) ∧
    ∃ us, Forall2 (λ it u, it !! s2l "username" = Some u) data us ∧
          returned r `sublist_of` us.
Proof.
  intros Hwf.
  destruct (classify_spec E rem data m e v st Hwf)
    as (q & ub & ui & r & q' & _ & Hc & _ & _ & _ & Hq' & H2 & Hret).
  exists r. split; [exact Hc|]. split; [|split; [exact Hret|]].
  - eapply Forall2_impl; [exact H2|]. intros it it' (u & _ & ->).
    exists (qget q' u no). split; [apply qget_yes_no, Hq'|reflexivity].
  - rewrite Hret. clear Hc Hret Hwf. generalize dependent (items_after r). intros its H2.
    induction H2 as [|it it' data items' (k & Hk & ->) _ IH].
    + exists []. split; constructor.
    + destruct (username_key_inv _ _ Hk) as (u & Hu & _).
      destruct IH as (names & Hus & Hsub). exists (u :: names). split; [constructor; assumption|].
      cbn [yes_usernames]. unfold verdict.
      rewrite lookup_insert_eq, lookup_insert_ne by apply is_christian_ne_username.
      rewrite Hu. case_decide.
      * apply sublist_skip, Hsub.
      * apply sublist_cons, Hsub.
Qed.

Lemma classify_verdicts_and_ids_witness :
  Forall wf_item sample_data ∧
  ∃ r, classify_profiles sample_env remote_yes sample_data None None None sample_store = Ok r ∧
    Forall2 (λ it it', ∃ w, (w = yes ∨ w = no) ∧
                            it' = <[s2l "is_christian" := PStr w]> it) sample_data (items_after r) ∧
    returned r = yes_usernames (items_after r) ∧
    ∃ us, Forall2 (λ it u, it !! s2l "username" = Some u) sample_data us ∧
          returned r `sublist_of` us.
Proof.
  split; [apply handler_payload_wf|].
  apply classify_verdicts_and_ids. apply handler_payload_wf.
Defined.

(** ** C10: the items are mutated in place *)

(** C10. On every well-formed batch (a hashable username, and a bio that
    is a string or falsy, on every item), the call writes an ["is_christian"]
    key holding ["yes"] or ["no"] on every input item and leaves every other
    key of every item as it was. *)
Theorem classify_mutates_only_is_christian (E : env) (rem : remote) (data : list dict)
    (m e v : option str) (st : store) :
  Forall wf_item data →
  ∃ r, classify_profiles E rem data m e v st = Ok r ∧
    Forall2 (λ it it', (verdict it' = Some (PStr yes) ∨ verdict it' = Some (PStr no)) ∧
                       ∀ k, k ≠ s2l "is_christian" → it' !! k = it !! k)
      data (items_after r).
Proof.
  intros Hwf.
  destruct (classify_spec E rem data m e v st Hwf)
    as (q & ub & ui & r & q' & _ & Hc & _ & _ & _ & Hq' & H2 & _).
  exists r. split; [exact Hc|].
  eapply Forall2_impl; [exact H2|]. intros it it' (u & _ & ->). split.
  - unfold verdict. rewrite lookup_insert_eq.
    destruct (qget_yes_no q' u Hq') as [-> | ->]; auto.
  - intros k Hk. rewrite lookup_insert_ne by congruence. reflexivity.
Qed.

Lemma classify_mutates_only_is_christian_witness :
  Forall wf_item sample_data ∧
  ∃ r, classify_profiles sample_env remote_fails sample_data None None None sample_store = Ok r ∧
    Forall2 (λ it it', (verdict it' = Some (PStr yes) ∨ verdict it' = Some (PStr no)) ∧
                       ∀ k, k ≠ s2l "is_christian" → it' !! k = it !! k)
      sample_data (items_after r).
Proof.
  split; [apply handler_payload_wf|].
  apply classify_mutates_only_is_christian. apply handler_payload_wf.
Defined.

(** ** C2: all-or-nothing fallback of stage 2 *)

(** C2. When the remote call raises, returns no content, or returns a
    reply whose token count differs from the number of unresolved items,
    every item stage 1 left unresolved ends with the verdict ["no"]. *)
Theorem stage2_rejected_all_no (E : env) (rem : remote) (data : list dict)
    (m e v : option str) (st : store) (r : result) :
  classify_profiles E rem data m e v st = Ok r →
  (∀ req, req ∈ calls r → reply_rejected (n_unresolved data) (rem req)) →
  ∀ j it, data !! j = Some it → unresolved it →
    items_after r !! j = Some (<[s2l "is_christian" := PStr no]> it).
Proof.
  intros Hc Hrej j it Hit Hun.
  pose proof (classify_wf _ _ _ _ _ _ _ _ Hc) as Hwf.
  destruct (classify_spec E rem data m e v st Hwf)
    as (q & ub & ui & r' & q' & Hs & Hc' & Hcalls & _ & Hne & _ & H2 & _).
  rewrite Hc in Hc'. injection Hc' as <-.
  destruct (stage1_spec _ _ _ _ _ Hs) as (_ & Hlen & Hmem & _ & _).
  pose proof (stage1_count _ _ _ _ _ Hs) as Hcount.
  assert (Hj : j ∈ ui) by (apply Hmem; split; [lia|]; exists it; rewrite Nat.sub_0_r; auto).
  assert (Hub : ub ≠ []).
  { intros ->. destruct ui; [apply elem_of_nil in Hj; contradiction|discriminate]. }
  destruct (Hne Hub) as (W & -> & Hvals & Hkeys).
  set (req := build_request E (get_classification_prompt st) ub m e v) in *.
  assert (Hflags : stage2_flags (length ub) (rem req) = repeat no (length ub)).
  { apply stage2_flags_rejected; [destruct ub; [contradiction|cbn; lia]|].
    unfold n_unresolved in Hrej. rewrite <- Hcount in Hrej. apply Hrej.
    rewrite Hcalls. destruct ub; [contradiction|]. left. }
  rewrite Hflags in Hvals.
  destruct (proj1 (Forall_lookup _ _) Hwf j it Hit) as [[u Hu] _].
  destruct (Hkeys j it u Hj Hit Hu) as [v0 Hv0].
  destruct (qget_app_found W q u no (ex_intro _ v0 Hv0)) as (v1 & Hv1 & Hq).
  pose proof (proj1 (Forall_forall _ _) Hvals _ Hv1) as (f & Hf & Hv1f).
  apply list_elem_of_In, repeat_spec in Hf. cbn in Hv1f. subst f.
  destruct (Forall2_lookup_l _ _ _ _ _ H2 Hit) as (it' & Hit' & (u' & Hu' & ->)).
  rewrite Hu in Hu'. injection Hu' as <-.
  rewrite Hit', Hq, Hv1f. reflexivity.
Qed.

Lemma stage2_rejected_all_no_witness :
  match classify_profiles sample_env remote_fails sample_data None None None sample_store with
  | Ok r => items_after r !! 1 = Some (<[s2l "is_christian" := PStr no]> sample_item1)
  | Exn _ => False
  end.
Proof.
  destruct (classify_profiles sample_env remote_fails sample_data None None None sample_store)
    as [r|err] eqn:Hc.
  - eapply stage2_rejected_all_no.
    + exact Hc.
    + intros req _. left. reflexivity.
    + vm_compute. reflexivity.
    + exists (s2l "just a dog mom"). split; vm_compute; reflexivity.
  - vm_compute in Hc. discriminate Hc.
Defined.

(** ** C3: stage-1 short-circuit and at most one remote call *)

(** C3. An item whose text contains a keyword (ignoring case) or a
    whole-word Bible book is resolved by stage 1; a call sends at most one
    request, and none exactly when stage 1 resolves every item, in
    particular none when every item has a hashable username and a text
    that matches (an unhashable username makes the call raise
    [TypeError] in stage 1, before any request). *)
Theorem stage1_short_circuit (E : env) (rem : remote) (data : list dict)
    (m e v : option str) (st : store) :
  (∀ it t, raw_bio it = Ok t → keyword_in t ∨ bible_word_in t → resolved it) ∧
  (∀ r, classify_profiles E rem data m e v st = Ok r →
     length (calls r) ≤ 1 ∧ (calls r = [] ↔ Forall resolved data)) ∧
  (Forall (λ it, (∃ k, username_key it = Ok k) ∧
                 ∃ t, raw_bio it = Ok t ∧ (keyword_in t ∨ bible_word_in t)) data →
     ∃ r, classify_profiles E rem data m e v st = Ok r ∧ calls r = []).
Proof.
  assert (P1 : ∀ it t, raw_bio it = Ok t → keyword_in t ∨ bible_word_in t → resolved it).
  { intros it t Ht Hk. exists (strip t). split.
    - unfold bio_of. rewrite Ht. reflexivity.
    - apply keyword_stage1, Hk. }
  assert (P2 : ∀ r, classify_profiles E rem data m e v st = Ok r →
                 length (calls r) ≤ 1 ∧ (calls r = [] ↔ Forall resolved data)).
  { intros r Hc. pose proof (classify_wf _ _ _ _ _ _ _ _ Hc) as Hwf.
    destruct (classify_spec E rem data m e v st Hwf)
      as (q & ub & ui & r' & q' & Hs & Hc' & Hcalls & _).
    rewrite Hc in Hc'. injection Hc' as <-.
    destruct (stage1_spec _ _ _ _ _ Hs) as (_ & _ & _ & Hnil & _).
    rewrite Hcalls, <- Hnil. destruct ub; cbn.
    - split; [lia|tauto].
    - split; [lia|]. split; discriminate. }
  split; [exact P1|]. split; [exact P2|].
  intros Hall.
  assert (Hwf : Forall wf_item data).
  { eapply Forall_impl; [exact Hall|]. intros it [Hu (t & Ht & _)]. split; eauto. }
  destruct (classify_spec E rem data m e v st Hwf) as (_ & _ & _ & r & _ & _ & Hc & _).
  exists r. split; [exact Hc|]. apply (P2 r Hc).
  eapply Forall_impl; [exact Hall|]. intros it [_ (t & Ht & Hk)]. eapply P1; eauto.
Qed.

(** ** C6: normalisation of the verdict tokens *)

Lemma lower_char_y (c : ascii) :
  Ascii.eqb "y"%char (lower_char c) = Ascii.eqb c "y"%char || Ascii.eqb c "Y"%char.
Proof. destruct c as [[] [] [] [] [] [] [] []]; reflexivity. Qed.

Lemma normalize_flag_spec (f : str) :
  normalize_flag f = yes ↔ ∃ c rest, strip f = c :: rest ∧ (c = "y"%char ∨ c = "Y"%char).
Proof.
  unfold normalize_flag, lower. change (s2l "y") with ["y"%char].
  destruct (strip f) as [|c rest]; cbn [map startswith].
  - split; [discriminate|]. intros (c & rest & H & _). discriminate.
  - rewrite andb_true_r, lower_char_y.
    destruct (Ascii.eqb c "y"%char) eqn:Ey; [|destruct (Ascii.eqb c "Y"%char) eqn:EY]; cbn.
    + apply Ascii.eqb_eq in Ey. subst. split; [eauto|reflexivity].
    + apply Ascii.eqb_eq in EY. subst. split; [eauto|reflexivity].
    + split; [discriminate|]. intros (c' & rest' & Heq & Hc). injection Heq as <- <-.
      apply Ascii.eqb_neq in Ey, EY. destruct Hc; contradiction.
Qed.

(** C6. Every stage-2 flag is ["yes"] or ["no"]; when the token count
    matches, the flags are the normalised tokens; a token normalises to
    ["yes"] exactly when, trimmed, it starts with [y] or [Y], and to ["no"]
    otherwise; so every final verdict is ["yes"] or ["no"]. *)
Theorem stage2_tokens_normalized :
  (∀ n reply, Forall (λ f, f = yes ∨ f = no) (stage2_flags n reply)) ∧
  (∀ n t, length (split_ws (strip t)) = n →
     stage2_flags n (Some t) = map normalize_flag (split_ws (strip t))) ∧
  (∀ f, normalize_flag f = yes ↔ ∃ c rest, strip f = c :: rest ∧ (c = "y"%char ∨ c = "Y"%char)) ∧
  (∀ f, normalize_flag f ≠ yes → normalize_flag f = no) ∧
  (∀ E rem data m e v st r, classify_profiles E rem data m e v st = Ok r →
     Forall (λ it, verdict it = Some (PStr yes) ∨ verdict it = Some (PStr no)) (items_after r)).
Proof.
  split; [exact stage2_flags_yes_no|]. split.
  { intros n t Hn. cbn. rewrite Hn, Nat.eqb_refl. reflexivity. }
  split; [exact normalize_flag_spec|]. split.
  { intros f Hf. destruct (normalize_flag_yes_no f); [contradiction|assumption]. }
  intros E rem data m e v st r Hc.
  pose proof (classify_wf _ _ _ _ _ _ _ _ Hc) as Hwf.
  destruct (classify_spec E rem data m e v st Hwf)
    as (q & ub & ui & r' & q' & _ & Hc' & _ & _ & _ & Hq' & H2 & _).
  rewrite Hc in Hc'. injection Hc' as <-.
  clear Hc Hwf. generalize dependent (items_after r). intros its H2.
  induction H2 as [|it it' data its (u & _ & ->) _ IH]; constructor; [|exact IH].
  unfold verdict. rewrite lookup_insert_eq.
  destruct (qget_yes_no q' u Hq') as [-> | ->]; auto.
Qed.

(** ** C9: allow-listed configuration values *)

Lemma truthy_resolve_enum (allowed : list str) (o : option str) (x : str) :
  Forall (λ a, a ≠ []) allowed →
  truthy_opt (resolve_enum allowed o) = Some x ↔
  ∃ s, o = Some s ∧ x = strip (lower s) ∧ x ∈ allowed.
Proof.
  intros Hne. destruct o as [s|]; cbn.
  - destruct (existsb (λ a, bool_decide (a = strip (lower s))) allowed) eqn:Ex.
    + apply existsb_exists in Ex as (a & Ha & Hd). apply bool_decide_eq_true in Hd. subst a.
      apply list_elem_of_In in Ha.
      pose proof (proj1 (Forall_forall _ _) Hne _ Ha) as Hn.
      destruct (strip (lower s)) as [|c rest] eqn:Es; [contradiction|]. cbn.
      split.
      * intros H. injection H as <-. eauto.
      * intros (s' & Hs' & -> & _). injection Hs' as <-. rewrite Es. reflexivity.
    + split; [discriminate|]. intros (s' & Hs' & -> & Hin). injection Hs' as <-.
      assert (Ht : existsb (λ a, bool_decide (a = strip (lower s))) allowed = true).
      { apply existsb_exists. exists (strip (lower s)). split; [apply list_elem_of_In, Hin|].
        apply bool_decide_eq_true. reflexivity. }
      congruence.
  - split; [discriminate|]. intros (s & Hs & _). discriminate.
Qed.

Lemma classify_ok_iff_wf (E : env) (rem : remote) (data : list dict)
    (m e v : option str) (st : store) :
  (∃ r, classify_profiles E rem data m e v st = Ok r) ↔ Forall wf_item data.
Proof.
  split.
  - intros [r Hc]. exact (classify_wf _ _ _ _ _ _ _ _ Hc).
  - intros Hwf. destruct (classify_spec E rem data m e v st Hwf) as (_ & _ & _ & r & _ & _ & Hc & _).
    eauto.
Qed.

(** C9. In the request sent to the remote capability, the reasoning effort
    and the verbosity are present exactly when the configured value (the
    argument, or the environment default when the argument is [None] or
    empty), lowercased and stripped, is in its allow-list, and then they
    are that value; the configuration values never make the call raise. *)
Theorem config_allow_lists (E : env) (rem : remote) (data : list dict)
    (m e v : option str) (st : store) :
  (∀ r, classify_profiles E rem data m e v st = Ok r → ∀ req, req ∈ calls r →
     (∀ x, req_effort req = Some x ↔
        ∃ s, py_or e (CLASSIFY_REASONING_EFFORT_DEFAULT E) = Some s ∧ x = strip (lower s) ∧
             x ∈ map s2l ["minimal"; "low"; "medium"; "high"]) ∧
     (∀ x, req_verbosity req = Some x ↔
        ∃ s, py_or v (CLASSIFY_VERBOSITY_DEFAULT E) = Some s ∧ x = strip (lower s) ∧
             x ∈ map s2l ["low"; "medium"; "high"])) ∧
  ((∃ r, classify_profiles E rem data m e v st = Ok r) ↔
   (∃ r, classify_profiles E rem data None None None st = Ok r)).
Proof.
  split.
  - intros r Hc req Hreq.
    pose proof (classify_wf _ _ _ _ _ _ _ _ Hc) as Hwf.
    destruct (classify_spec E rem data m e v st Hwf)
      as (q & ub & ui & r' & q' & _ & Hc' & Hcalls & _).
    rewrite Hc in Hc'. injection Hc' as <-. rewrite Hcalls in Hreq.
    destruct ub as [|b ub]; [apply elem_of_nil in Hreq; contradiction|].
    apply list_elem_of_singleton in Hreq. subst req. cbn [req_effort req_verbosity build_request].
    split; intros x; apply truthy_resolve_enum; repeat constructor; discriminate.
  - rewrite !classify_ok_iff_wf. reflexivity.
Qed.

(** ** C4: the per-request override is scoped to its call *)

(** C4. With a non-blank override the run sees the override as the
    criteria and the prompt derived from it; the handler leaves the store
    exactly as it found it, also when the run raises; so a later call
    without override runs on the store as it was before. *)
Theorem classify_override_scoped {A : Type} (run : store → outcome A)
    (criteria : option str) (st : store) :
  (classify_handler run criteria st).1 = st ∧
  (classify_handler run criteria st).2 =
    run (match criteria with
         | Some c => if override_given criteria then override_store c st else st
         | None => st
         end) ∧
  (∀ c err, override_given (Some c) = true → run (override_store c st) = Exn err →
     classify_handler run (Some c) st = (st, Exn err)) ∧
  (classify_handler run None (classify_handler run criteria st).1).2 = run st.
Proof.
  assert (H3 : ∀ c err, override_given (Some c) = true → run (override_store c st) = Exn err →
                classify_handler run (Some c) st = (st, Exn err)).
  { intros c err Hg Hrun. unfold classify_handler. rewrite Hg.
    unfold override_store in Hrun. rewrite Hrun. destruct st; reflexivity. }
  assert (H1 : (classify_handler run criteria st).1 = st).
  { unfold classify_handler. destruct criteria as [c|]; [|reflexivity].
    destruct (override_given (Some c)); [destruct st|]; reflexivity. }
  split; [exact H1|]. split.
  { unfold classify_handler. destruct criteria as [c|]; [|reflexivity].
    destruct (override_given (Some c)); reflexivity. }
  split; [exact H3|]. rewrite H1. reflexivity.
Qed.

(** ** C5: the full prompt is derived from the criteria *)

(** C5 (counterexample). A legacy record [{"prompt": "legacy prompt"}]
    leaves the full prompt at the stored text, which is not header,
    criteria and footer. *)
Lemma legacy_record_breaks_prompt_invariant :
  _current_prompt (startup (FObject [(s2l "prompt", PStr (s2l "legacy prompt"))])) ≠
  PStr (DEFAULT_PROMPT_HEADER
        ++ py_str (_current_criteria (startup (FObject [(s2l "prompt", PStr (s2l "legacy prompt"))])))
        ++ DEFAULT_PROMPT_FOOTER).
Proof. intros H. vm_compute in H. discriminate H. Qed.

(** C5 (amended). The full prompt is the header, the criteria, a newline
    and the footer: at startup from any file that is not a legacy record,
    after every update and reset, during an override and after it.  A
    legacy record (a ["prompt"] member and no ["criteria"] member) sets the
    full prompt to the stored value and the criteria to the default. *)
Theorem prompt_derived_from_criteria :
  (∀ f, ¬ legacy_record f → prompt_derived (startup f)) ∧
  (∀ kvs p, obj_get (s2l "criteria") kvs = None → obj_get (s2l "prompt") kvs = Some p →
     _current_prompt (startup (FObject kvs)) = p ∧
     _current_criteria (startup (FObject kvs)) = PStr DEFAULT_CRITERIA_TEXT) ∧
  (∀ io ts c st, prompt_derived (update_classification_prompt io ts c st).1) ∧
  (∀ io ts st, prompt_derived (reset_to_default_prompt io ts st).1) ∧
  (∀ c st, prompt_derived (override_store c st)) ∧
  (∀ (A : Type) (run : store → outcome A) criteria st,
     prompt_derived st → prompt_derived (classify_handler run criteria st).1).
Proof.
  split; [|split; [|split; [|split; [|split]]]].
  - intros f Hf. unfold prompt_derived. destruct f as [| | | |kvs]; try reflexivity.
    cbn [startup _load_prompt_from_file startup_criteria _current_prompt _current_criteria].
    destruct (obj_get (s2l "criteria") kvs) as [c|] eqn:Ec; [reflexivity|].
    destruct (obj_get (s2l "prompt") kvs) as [p|] eqn:Ep; [|reflexivity].
    exfalso. apply Hf. unfold legacy_record. rewrite Ec, Ep. split; [reflexivity|eexists; reflexivity].
  - intros kvs p Hc Hp.
    cbn [startup _load_prompt_from_file startup_criteria _current_prompt _current_criteria].
    rewrite Hc, Hp. split; reflexivity.
  - intros io ts c st. unfold update_classification_prompt.
    destruct (_save_criteria_to_file io ts (PStr c) (prompt_file st)). reflexivity.
  - intros io ts st. unfold reset_to_default_prompt, update_classification_prompt.
    destruct (_save_criteria_to_file io ts _ _). reflexivity.
  - intros c st. reflexivity.
  - intros A run criteria st Hst. rewrite (proj1 (classify_override_scoped run criteria st)).
    exact Hst.
Qed.

(** ** C7: startup fallback to the default criteria *)

(** C7 (counterexample). A record [{"criteria": null}] is not replaced by
    the default: the live criteria become [None]. *)
Lemma null_criteria_kept_at_startup :
  _current_criteria (startup (FObject [(s2l "criteria", PNone)])) ≠ PStr DEFAULT_CRITERIA_TEXT.
Proof. intros H. vm_compute in H. discriminate H. Qed.

(** C7 (amended). Startup never raises; it takes the default criteria (and
    the default full prompt) when the file is missing, unreadable, not
    valid JSON or not a JSON object, and the default criteria when the
    object has no ["criteria"] member; otherwise the live criteria are the
    member's value as it is, with no check of its type. *)
Theorem startup_falls_back_to_default :
  (∀ f, f = FMissing ∨ f = FUnreadable ∨ f = FInvalidJson ∨ f = FNonObject →
     _current_criteria (startup f) = PStr DEFAULT_CRITERIA_TEXT ∧
     _current_prompt (startup f) = PStr (_build_full_prompt (PStr DEFAULT_CRITERIA_TEXT))) ∧
  (∀ kvs, obj_get (s2l "criteria") kvs = None →
     _current_criteria (startup (FObject kvs)) = PStr DEFAULT_CRITERIA_TEXT) ∧
  (∀ kvs c, obj_get (s2l "criteria") kvs = Some c →
     _current_criteria (startup (FObject kvs)) = c ∧
     _current_prompt (startup (FObject kvs)) = PStr (_build_full_prompt c)).
Proof.
  split; [|split].
  - intros f [->|[->|[->| ->]]]; split; reflexivity.
  - intros kvs Hc. cbn [startup startup_criteria _current_criteria]. rewrite Hc. reflexivity.
  - intros kvs c Hc.
    cbn [startup startup_criteria _load_prompt_from_file _current_criteria _current_prompt].
    rewrite Hc. split; reflexivity.
Qed.

(** ** C8: best-effort persistence on update *)

(** C8. An update sets the live criteria to the new text and the full
    prompt to the one derived from it, returns that prompt and never
    raises; the file holds the new record when the write succeeds and is
    left as the failed write left it otherwise, the in-memory values being
    updated in both cases. *)
Theorem update_best_effort (io : save_io) (ts c : str) (st : store) :
  _current_criteria (update_classification_prompt io ts c st).1 = PStr c ∧
  _current_prompt (update_classification_prompt io ts c st).1 =
    PStr (_build_full_prompt (PStr c)) ∧
  (update_classification_prompt io ts c st).2 = PStr (_build_full_prompt (PStr c)) ∧
  prompt_file (update_classification_prompt io ts c st).1 =
    match io with
    | SaveOk => saved_record c ts
    | SaveFailed f => f
    end.
Proof. destruct io; repeat split. Qed.

(** * Further properties of the code *)


Lemma lstrip_shape (s : str) :
  lstrip s = [] ∨ ∃ c r, lstrip s = c :: r ∧ is_ws c = false.
Proof.
  induction s as [|c s IH]; cbn [lstrip]; [left; reflexivity|].
  destruct (is_ws c) eqn:Hc; [exact IH|]. right. eauto.
Qed.

Lemma lstrip_suffix (s : str) : ∃ w, s = w ++ lstrip s.
Proof.
  induction s as [|c s [w Hw]]; cbn [lstrip]; [exists []; reflexivity|].
  destruct (is_ws c); [exists (c :: w); cbn; f_equal; exact Hw|exists []; reflexivity].
Qed.

Lemma rstrip_prefix (s : str) : ∃ w, s = rstrip s ++ w.
Proof.
  destruct (lstrip_suffix (rev s)) as [w Hw]. exists (rev w). unfold rstrip.
  rewrite <- rev_app_distr, <- Hw, rev_involutive. reflexivity.
Qed.


(** [strip] gives the empty text or a text with non-whitespace ends. *)
Lemma strip_stripped (s : str) : strip s = [] ∨ edges_non_ws (strip s) = true.
Proof.
  unfold strip. destruct (lstrip_shape s) as [-> | (c & r & -> & Hc)]; [left; reflexivity|].
  right. destruct (rstrip_keeps [] [] r c Hc) as [b' Hb']. cbn [app] in Hb'. rewrite Hb'.
  assert (Hrev : rev (c :: b') = lstrip (rev (c :: r))).
  { rewrite <- Hb'. unfold rstrip. apply rev_involutive. }
  destruct (lstrip_shape (rev (c :: r))) as [H0 | (d & r' & Hd & Hdw)].
  - rewrite H0 in Hrev. apply (f_equal (@length ascii)) in Hrev.
    rewrite length_rev in Hrev. discriminate.
  - unfold edges_non_ws. rewrite Hrev, Hd, Hc, Hdw. reflexivity.
Qed.



Lemma Forall_strip (P : ascii → Prop) (s : str) : Forall P s → Forall P (strip s).
Proof.
  intros H. unfold strip.
  destruct (lstrip_suffix s) as [w Hw]. rewrite Hw in H. apply Forall_app in H as [_ H].
  destruct (rstrip_prefix (lstrip s)) as [w' Hw']. rewrite Hw' in H. apply Forall_app in H as [H _].
  exact H.
Qed.

(** ** Keyword test *)

Lemma startswith_prefix (s p x : str) : startswith s (p ++ x) = true → startswith s p = true.
Proof.
  revert s. induction p as [|c p IH]; intros s H; [reflexivity|].
  destruct s as [|d s]; [discriminate|]. cbn [app startswith] in *.
  apply andb_true_iff in H as [H1 H2]. rewrite H1. cbn. apply IH, H2.
Qed.

Lemma startswith_inv (s p : str) : startswith s p = true → ∃ y, s = p ++ y.
Proof.
  revert s. induction p as [|c p IH]; intros s H; [exists s; reflexivity|].
  destruct s as [|d s]; [discriminate|]. cbn [startswith] in H.
  apply andb_true_iff in H as [H1 H2]. apply Ascii.eqb_eq in H1 as ->.
  destruct (IH s H2) as [y ->]. exists y. reflexivity.
Qed.

Lemma contains_inv (p s : str) : contains p s = true → ∃ x y, s = x ++ p ++ y.
Proof.
  induction s as [|c s IH]; cbn [contains]; intros H.
  - rewrite orb_false_r in H. destruct (startswith_inv _ _ H) as [y Hy].
    exists [], y. exact Hy.
  - apply orb_true_iff in H as [H|H].
    + destruct (startswith_inv _ _ H) as [y Hy]. exists [], y. exact Hy.
    + destruct (IH H) as (x & y & ->). exists (c :: x), y. reflexivity.
Qed.

Lemma contains_cons (p : str) (c : ascii) (s : str) :
  contains p s = true → contains p (c :: s) = true.
Proof. intros H. cbn [contains]. rewrite H. apply orb_true_r. Qed.

Lemma startswith_contains (p s : str) : startswith s p = true → contains p s = true.
Proof. intros H. destruct s; cbn [contains]; rewrite H; reflexivity. Qed.

Lemma bible_search_from_books (pre s : str) :
  bible_search_from pre s = true → ∃ b, b ∈ BIBLE_BOOKS ∧ contains b (lower s) = true.
Proof.
  revert pre. induction s as [|c s IH]; intros pre H; cbn [bible_search_from] in H;
    apply orb_true_iff in H as [H|H].
  - unfold bible_match_at in H. apply andb_true_iff in H as [_ H].
    apply existsb_exists in H as (b & Hb & H). apply existsb_exists in H as (x & _ & H).
    apply andb_true_iff in H as [H _]. exists b. split; [apply list_elem_of_In, Hb|].
    apply startswith_contains. eapply startswith_prefix. exact H.
  - discriminate.
  - unfold bible_match_at in H. apply andb_true_iff in H as [_ H].
    apply existsb_exists in H as (b & Hb & H). apply existsb_exists in H as (x & _ & H).
    apply andb_true_iff in H as [H _]. exists b. split; [apply list_elem_of_In, Hb|].
    apply startswith_contains. eapply startswith_prefix. exact H.
  - destruct (IH _ H) as (b & Hb & Hc). exists b. split; [exact Hb|].
    apply contains_cons, Hc.
Qed.

(** The Bible pattern adds nothing to the keyword test. *)
Lemma has_keywords_existsb (bio : str) :
  has_christian_keywords bio = existsb (fun k => contains k (lower bio)) QUICK_KEYWORDS.
Proof.
  unfold has_christian_keywords.
  destruct (existsb _ _) eqn:E; [reflexivity|]. cbn [orb].
  destruct (bible_search bio) eqn:B; [|reflexivity].
  destruct (bible_search_from_books [] bio B) as (b & Hb & Hc).
  rewrite <- E. symmetry. apply existsb_exists. exists b.
  split; [apply list_elem_of_In, bible_books_quick, Hb | exact Hc].
Qed.

Lemma lower_char_idem (c : ascii) : lower_char (lower_char c) = lower_char c.
Proof. destruct c as [[] [] [] [] [] [] [] []]; reflexivity. Qed.

Lemma is_word_lower_char (c : ascii) : is_word (lower_char c) = is_word c.
Proof. destruct c as [[] [] [] [] [] [] [] []]; reflexivity. Qed.

Lemma lower_idem (s : str) : lower (lower s) = lower s.
Proof. unfold lower. rewrite map_map. apply map_ext, lower_char_idem. Qed.

Lemma existsb_ext' {A} (f g : A → bool) (l : list A) :
  (∀ x, f x = g x) → existsb f l = existsb g l.
Proof. intros H. induction l as [|x l IH]; cbn; [reflexivity|]. rewrite H, IH. reflexivity. Qed.

Lemma bible_match_at_lower (pre rest : str) :
  bible_match_at (lower pre) (lower rest) = bible_match_at pre rest.
Proof.
  unfold bible_match_at. f_equal.
  - destruct pre as [|c pre]; [reflexivity|]. cbn [lower map]. rewrite is_word_lower_char. reflexivity.
  - apply existsb_ext'. intros b. apply existsb_ext'. intros x.
    rewrite lower_idem. f_equal. unfold lower. rewrite skipn_map.
    destruct (drop _ rest) as [|c r]; [reflexivity|]. cbn [map]. rewrite is_word_lower_char. reflexivity.
Qed.

Lemma bible_search_from_lower (pre s : str) :
  bible_search_from (lower pre) (lower s) = bible_search_from pre s.
Proof.
  revert pre. induction s as [|c s IH]; intros pre.
  - cbn [bible_search_from]. change (lower []) with (@nil ascii).
    rewrite <- (bible_match_at_lower pre []). reflexivity.
  - change (lower (c :: s)) with (lower_char c :: lower s). cbn [bible_search_from].
    change (lower_char c :: lower s) with (lower (c :: s)).
    rewrite bible_match_at_lower. f_equal.
    change (lower_char c :: lower pre) with (lower (c :: pre)). apply IH.
Qed.

Lemma bible_search_lower (s : str) : bible_search (lower s) = bible_search s.
Proof. exact (bible_search_from_lower [] s). Qed.

Lemma has_keywords_lower (bio : str) :
  has_christian_keywords (lower bio) = has_christian_keywords bio.
Proof. unfold has_christian_keywords. rewrite lower_idem, bible_search_lower. reflexivity. Qed.

Lemma has_keywords_infix (a s b : str) :
  has_christian_keywords s = true → has_christian_keywords (a ++ s ++ b) = true.
Proof.
  rewrite !has_keywords_existsb. intros H.
  apply existsb_exists in H as (k & Hk & Hc). apply existsb_exists. exists k. split; [exact Hk|].
  destruct (contains_inv _ _ Hc) as (x & y & Hxy).
  rewrite !lower_app, Hxy.
  replace (lower a ++ (x ++ k ++ y) ++ lower b) with ((lower a ++ x) ++ k ++ (y ++ lower b))
    by (rewrite <- !app_assoc; reflexivity).
  apply contains_app.
Qed.


Lemma stage1_ui_rank (items : list dict) (i : nat) (q : qmap) (ub : list str) (ui : list nat) :
  stage1 i items = Ok (q, ub, ui) →
  ∀ j it, items !! j = Some it → unresolved it → ui !! n_unresolved (take j items) = Some (i + j).
Proof.
  revert i q ub ui. induction items as [|it0 rest IH]; intros i q ub ui H j it Hit Hun.
  - rewrite lookup_nil in Hit. discriminate.
  - cbn [stage1] in H. ok_inv H. destruct a2 as [[q0 ub0] ui0].
    destruct j as [|j].
    + cbn in Hit. injection Hit as <-. destruct Hun as (b & Hb & Hn).
      rewrite Hm0 in Hb. injection Hb as <-. rewrite Hn in H. injection H as <- <- <-.
      rewrite Nat.add_0_r. reflexivity.
    + cbn in Hit. pose proof (IH _ _ _ _ Hm2 j it Hit Hun) as Hr.
      unfold n_unresolved in *. cbn [firstn List.filter]. unfold is_unresolved at 1. rewrite Hm0.
      destruct (has_christian_keywords a0); injection H as <- <- <-; cbn [negb].
      * replace (i + S j) with (S i + j) by lia. exact Hr.
      * replace (i + S j) with (S i + j) by lia. exact Hr.
Qed.

Lemma stage1_ui_nodup (items : list dict) (i : nat) (q : qmap) (ub : list str) (ui : list nat) :
  stage1 i items = Ok (q, ub, ui) → NoDup ui.
Proof.
  revert i q ub ui. induction items as [|it0 rest IH]; intros i q ub ui H.
  - cbn in H. injection H as <- <- <-. constructor.
  - cbn [stage1] in H. ok_inv H. destruct a2 as [[q0 ub0] ui0].
    pose proof (IH _ _ _ _ Hm2) as Hnd.
    destruct (stage1_spec _ _ _ _ _ Hm2) as (_ & _ & Hmem & _ & _).
    destruct (has_christian_keywords a0); injection H as <- <- <-; [exact Hnd|].
    constructor; [|exact Hnd]. intros Hin. apply Hmem in Hin as [Hle _]. lia.
Qed.

(** The stage-1 writes: one per item, ["yes"] for a resolved one. *)
Lemma stage1_entries (items : list dict) (i : nat) (q : qmap) (ub : list str) (ui : list nat) :
  stage1 i items = Ok (q, ub, ui) →
  (∀ u v, (u, v) ∈ q → ∃ j it, items !! j = Some it ∧ username_key it = Ok u ∧
                               (resolved it → v = yes)) ∧
  (∀ j it u, items !! j = Some it → username_key it = Ok u → ∃ v, (u, v) ∈ q).
Proof.
  revert i q ub ui. induction items as [|it0 rest IH]; intros i q ub ui H.
  - cbn in H. injection H as <- <- <-. split.
    + intros u v Hin. apply elem_of_nil in Hin. contradiction.
    + intros j it u Hit. rewrite lookup_nil in Hit. discriminate.
  - cbn [stage1] in H. ok_inv H. destruct a2 as [[q0 ub0] ui0].
    destruct (IH _ _ _ _ Hm2) as [Hent Hex].
    assert (Hu0 : username_key it0 = Ok a1) by (unfold username_key; rewrite Hm; exact Hm1).
    assert (Hgen : ∀ w, (has_christian_keywords a0 = true → w = yes) →
      (∀ u v, (u, v) ∈ q0 ++ [(a1, w)] → ∃ j it, (it0 :: rest) !! j = Some it ∧
          username_key it = Ok u ∧ (resolved it → v = yes)) ∧
      (∀ j it u, (it0 :: rest) !! j = Some it → username_key it = Ok u →
          ∃ v, (u, v) ∈ q0 ++ [(a1, w)])).
    { intros w Hw. split.
      - intros u v Hin. apply elem_of_app in Hin as [Hin|Hin].
        + destruct (Hent u v Hin) as (j & it & Hit & Hu & Hr). exists (S j), it. auto.
        + apply list_elem_of_singleton in Hin. injection Hin as -> ->.
          exists 0, it0. split; [reflexivity|]. split; [exact Hu0|].
          intros (b & Hb & Hy). rewrite Hm0 in Hb. injection Hb as <-. auto.
      - intros [|j] it u Hit Hu.
        + cbn in Hit. injection Hit as <-. rewrite Hu0 in Hu. injection Hu as <-.
          exists w. apply elem_of_app. right. left.
        + destruct (Hex j it u Hit Hu) as [v Hv]. exists v. apply elem_of_app. left. exact Hv. }
    destruct (has_christian_keywords a0) eqn:Hk; injection H as <- <- <-.
    + apply Hgen. auto.
    + apply Hgen. discriminate.
Qed.

(** The bios sent to stage 2: the cleaned bios of the unresolved items. *)
Lemma stage1_ub (items : list dict) (i : nat) (q : qmap) (ub : list str) (ui : list nat) :
  stage1 i items = Ok (q, ub, ui) →
  Forall2 (λ it b, ∃ bio, bio_of it = Ok bio ∧ b = strip (sub_non_word bio))
    (List.filter is_unresolved items) ub.
Proof.
  revert i q ub ui. induction items as [|it0 rest IH]; intros i q ub ui H.
  - cbn in H. injection H as <- <- <-. constructor.
  - cbn [stage1] in H. ok_inv H. destruct a2 as [[q0 ub0] ui0].
    pose proof (IH _ _ _ _ Hm2) as H2.
    cbn [List.filter]. unfold is_unresolved at 1. rewrite Hm0.
    destruct (has_christian_keywords a0); injection H as <- <- <-; cbn [negb].
    + exact H2.
    + constructor; [|exact H2]. eauto.
Qed.

Lemma apply_flags_entries (data : list dict) (ui : list nat) (flags : list str) (q q' : qmap) :
  apply_flags data ui flags q = Ok q' →
  ∃ W, q' = W ++ q ∧
    ∀ u v, (u, v) ∈ W → ∃ k j it f, ui !! k = Some j ∧ data !! j = Some it ∧
      username_key it = Ok u ∧ flags !! k = Some f ∧ v = lower f.
Proof.
  revert ui q. induction flags as [|f flags IH]; intros ui q H.
  - assert (Hq : q' = q) by (destruct ui; cbn in H; injection H as <-; reflexivity).
    subst q'. exists []. split; [reflexivity|].
    intros u v Hin. apply elem_of_nil in Hin. contradiction.
  - destruct ui as [|j ui]; [discriminate|]. cbn [apply_flags] in H.
    destruct (data !! j) as [it|] eqn:Hit; [|discriminate].
    destruct (username_key it) as [u0|e0] eqn:Hu0; cbn [obind] in H; [|discriminate].
    destruct (IH _ _ H) as (W & -> & HW).
    exists (W ++ [(u0, lower f)]). split; [rewrite <- app_assoc; reflexivity|].
    intros u v Hin. apply elem_of_app in Hin as [Hin|Hin].
    + destruct (HW u v Hin) as (k & j' & it' & f' & Hk & Hj' & Hu & Hf & Hv).
      exists (S k), j', it', f'. auto.
    + apply list_elem_of_singleton in Hin. injection Hin as -> ->.
      exists 0, j, it, f. auto.
Qed.

Lemma qget_app_notin (W q : qmap) (u : pykey) (d : str) :
  (∀ v, (u, v) ∉ W) → qget (W ++ q) u d = qget q u d.
Proof.
  induction W as [|[k v] W IH]; intros H; [reflexivity|]. cbn.
  destruct (decide (k = u)) as [->|Hne].
  - exfalso. apply (H v). left.
  - apply IH. intros v' Hv'. apply (H v'). right. exact Hv'.
Qed.

Lemma attach_ok (q : qmap) (data items' : list dict) :
  attach q data = Ok items' →
  Forall2 (λ it it', ∃ k, username_key it = Ok k ∧
                          it' = <[s2l "is_christian" := PStr (qget q k no)]> it) data items'.
Proof.
  revert items'. induction data as [|it data IH]; intros items' H.
  - cbn in H. injection H as <-. constructor.
  - cbn [attach] in H. ok_inv H. injection H as <-. constructor; [|apply IH; reflexivity].
    eauto.
Qed.

(** [classify_profiles] taken apart: the stage-1 result, the remote call
    and the writes, and the items it leaves. *)
Lemma classify_unfold (E : env) (rem : remote) (data : list dict) (m e v : option str)
    (st : store) (r : result) :
  classify_profiles E rem data m e v st = Ok r →
  ∃ q ub ui q', stage1 0 data = Ok (q, ub, ui) ∧
    ((ub = [] ∧ calls r = [] ∧ q' = q) ∨
     (ub ≠ [] ∧ calls r = [build_request E (get_classification_prompt st) ub m e v] ∧
      apply_flags data ui
        (stage2_flags (length ub) (rem (build_request E (get_classification_prompt st) ub m e v)))
        q = Ok q')) ∧
    Forall2 (λ it it', ∃ k, username_key it = Ok k ∧
                            it' = <[s2l "is_christian" := PStr (qget q' k no)]> it)
      data (items_after r).
Proof.
  unfold classify_profiles. intros H.
  destruct (stage1 0 data) as [[[q ub] ui]|err] eqn:Hs; cbn [obind] in H; [|discriminate].
  destruct ub as [|b ub'].
  - cbn [obind] in H. ok_inv H. injection H as <-.
    exists q, [], ui, q. split; [reflexivity|]. split; [left; auto|]. apply attach_ok, Hm.
  - ok_inv H. ok_inv Hm. injection Hm as <-. cbn [obind] in H. ok_inv H. injection H as <-.
    exists q, (b :: ub'), ui, a0. split; [reflexivity|]. split.
    + right. split; [discriminate|]. split; [reflexivity|exact Hm0].
    + apply attach_ok, Hm.
Qed.


Lemma lookup_map_some {X Y} (f : X → Y) (l : list X) (k : nat) (x : X) :
  l !! k = Some x → map f l !! k = Some (f x).
Proof.
  revert k. induction l as [|y l IH]; intros [|k] H; cbn in *; try discriminate; [congruence|].
  apply IH, H.
Qed.

Lemma username_unique (data : list dict) (j1 j2 : nat) (it1 it2 : dict) (u : pykey) :
  NoDup (item_key <$> data) →
  data !! j1 = Some it1 → data !! j2 = Some it2 →
  username_key it1 = Ok u → username_key it2 = Ok u → j1 = j2.
Proof.
  intros Hnd H1 H2 Hu1 Hu2. apply (NoDup_lookup _ j1 j2 (Some u) Hnd).
  - rewrite list_lookup_fmap, H1. cbn. unfold item_key. rewrite Hu1. reflexivity.
  - rewrite list_lookup_fmap, H2. cbn. unfold item_key. rewrite Hu2. reflexivity.
Qed.

Lemma stage1_ui_bound (data : list dict) (q : qmap) (ub : list str) (ui : list nat) :
  stage1 0 data = Ok (q, ub, ui) → ∀ j, j ∈ ui → j < length data.
Proof.
  intros Hs j Hj. destruct (stage1_spec _ _ _ _ _ Hs) as (_ & _ & Hmem & _ & _).
  apply Hmem in Hj as [_ [it [Hit _]]]. rewrite Nat.sub_0_r in Hit.
  apply lookup_lt_Some in Hit. exact Hit.
Qed.

(** With usernames that are distinct dict keys, the write of stage 1 for a
    username is the only one. *)
Lemma stage1_qget_resolved (data : list dict) (q : qmap) (ub : list str) (ui : list nat)
    (j : nat) (it : dict) (u : pykey) :
  stage1 0 data = Ok (q, ub, ui) →
  NoDup (item_key <$> data) →
  data !! j = Some it → username_key it = Ok u → resolved it →
  qget q u no = yes.
Proof.
  intros Hs Hnd Hit Hu Hres.
  destruct (stage1_entries _ _ _ _ _ Hs) as [Hent Hex].
  destruct (Hex j it u Hit Hu) as [v0 Hv0].
  destruct (qget_app_found q [] u no (ex_intro _ v0 Hv0)) as (v1 & Hv1 & Hq).
  rewrite app_nil_r in Hq. rewrite Hq.
  destruct (Hent u v1 Hv1) as (j' & it' & Hit' & Hu' & Hy).
  pose proof (username_unique _ _ _ _ _ _ Hnd Hit Hit' Hu Hu') as <-.
  rewrite Hit in Hit'. injection Hit' as <-. apply Hy, Hres.
Qed.

(** X1. When no two usernames are the same dict key (under [==], so not
    [1] and [True]) and the model's reply splits into as many tokens as there
    are unresolved items, the unresolved item at position [j] gets the token
    whose rank is the number of unresolved items before [j], normalized to
    yes or no. *)
Theorem stage2_tokens_align (E : env) (rem : remote) (data : list dict)
    (m e v : option str) (st : store) (r : result) (req : request) (t : str) :
  classify_profiles E rem data m e v st = Ok r →
  NoDup (item_key <$> data) →
  req ∈ calls r → rem req = Some t →
  length (split_ws (strip t)) = n_unresolved data →
  ∀ j it tok, data !! j = Some it → unresolved it →
    split_ws (strip t) !! n_unresolved (take j data) = Some tok →
    items_after r !! j = Some (<[s2l "is_christian" := PStr (normalize_flag tok)]> it).
Proof.
  intros Hc Hnd Hreq Ht Hlen j it tok Hit Hun Htok.
  pose proof (classify_wf _ _ _ _ _ _ _ _ Hc) as Hwf.
  destruct (classify_unfold _ _ _ _ _ _ _ _ Hc) as (q & ub & ui & q' & Hs & Hcase & H2).
  pose proof (stage1_ui_rank _ _ _ _ _ Hs j it Hit Hun) as Hk. cbn [Nat.add] in Hk.
  set (k := n_unresolved (take j data)) in *.
  pose proof (stage1_count _ _ _ _ _ Hs) as Hcount.
  destruct (stage1_spec _ _ _ _ _ Hs) as (_ & Hlenui & _ & _ & _).
  destruct Hcase as [(-> & Hcalls & _) | (Hub & Hcalls & Hap)].
  { rewrite Hcalls in Hreq. apply elem_of_nil in Hreq. contradiction. }
  rewrite Hcalls in Hreq. apply list_elem_of_singleton in Hreq. subst req.
  rewrite Ht in Hap.
  assert (Hfl : stage2_flags (length ub) (Some t) = map normalize_flag (split_ws (strip t))).
  { cbn [stage2_flags]. unfold n_unresolved in Hlen. rewrite Hcount, <- Hlen, Nat.eqb_refl.
    reflexivity. }
  rewrite Hfl in Hap.
  destruct (apply_flags_entries _ _ _ _ _ Hap) as (W & -> & HW).
  destruct (proj1 (Forall_lookup _ _) Hwf j it Hit) as [[u Hu] _].
  destruct (apply_flags_spec data ui (map normalize_flag (split_ws (strip t))) q Hwf)
    as (W2 & HW2 & _ & Hkeys).
  { apply stage1_ui_bound with (q := q) (ub := ub). exact Hs. }
  { rewrite length_map, Hlen, <- Hlenui. unfold n_unresolved. rewrite Hcount. reflexivity. }
  rewrite Hap in HW2. injection HW2 as HW2. apply app_inv_tail in HW2. subst W2.
  destruct (Hkeys j it u (list_elem_of_lookup_2 _ _ _ Hk) Hit Hu) as [v0 Hv0].
  destruct (qget_app_found W q u no (ex_intro _ v0 Hv0)) as (v1 & Hv1 & Hq).
  destruct (HW u v1 Hv1) as (k' & j' & it' & f & Hk' & Hj' & Hu' & Hf & Hv1f).
  pose proof (username_unique _ _ _ _ _ _ Hnd Hit Hj' Hu Hu') as <-.
  pose proof (NoDup_lookup _ _ _ _ (stage1_ui_nodup _ _ _ _ _ Hs) Hk Hk') as <-.
  rewrite (lookup_map_some normalize_flag _ _ _ Htok) in Hf. injection Hf as <-.
  rewrite lower_yes_no in Hv1f by apply normalize_flag_yes_no.
  destruct (Forall2_lookup_l _ _ _ _ _ H2 Hit) as (it'' & Hit'' & (u' & Hu'' & ->)).
  rewrite Hu in Hu''. injection Hu'' as <-.
  rewrite Hit'', Hq, Hv1f. reflexivity.
Qed.

(** X2. When no two usernames are the same dict key (under [==], so not
    [1] and [True]), an item that stage 1 resolves to yes ends with
    is_christian = yes, whatever the model replies. *)
Theorem stage1_yes_final (E : env) (rem : remote) (data : list dict)
    (m e v : option str) (st : store) (r : result) :
  classify_profiles E rem data m e v st = Ok r →
  NoDup (item_key <$> data) →
  ∀ j it, data !! j = Some it → resolved it →
    items_after r !! j = Some (<[s2l "is_christian" := PStr yes]> it).
Proof.
  intros Hc Hnd j it Hit Hres.
  pose proof (classify_wf _ _ _ _ _ _ _ _ Hc) as Hwf.
  destruct (classify_unfold _ _ _ _ _ _ _ _ Hc) as (q & ub & ui & q' & Hs & Hcase & H2).
  destruct (proj1 (Forall_lookup _ _) Hwf j it Hit) as [[u Hu] _].
  pose proof (stage1_qget_resolved _ _ _ _ _ _ _ Hs Hnd Hit Hu Hres) as Hq.
  assert (Hq' : qget q' u no = yes).
  { destruct Hcase as [(_ & _ & ->) | (_ & _ & Hap)]; [exact Hq|].
    destruct (apply_flags_entries _ _ _ _ _ Hap) as (W & -> & HW).
    rewrite qget_app_notin; [exact Hq|]. intros v0 Hv0.
    destruct (HW u v0 Hv0) as (k & j' & it' & f & Hk & Hj' & Hu' & _).
    pose proof (username_unique _ _ _ _ _ _ Hnd Hit Hj' Hu Hu') as <-.
    destruct (stage1_spec _ _ _ _ _ Hs) as (_ & _ & Hmem & _ & _).
    apply list_elem_of_lookup_2, Hmem in Hk as [_ [it'' [Hit'' Hun]]].
    rewrite Nat.sub_0_r, Hit in Hit''. injection Hit'' as <-.
    exact (resolved_unresolved it Hres Hun). }
  destruct (Forall2_lookup_l _ _ _ _ _ H2 Hit) as (it'' & Hit'' & (u' & Hu'' & ->)).
  rewrite Hu in Hu''. injection Hu'' as <-. rewrite Hit'', Hq'. reflexivity.
Qed.


(** X3. Two items with the same username always end with the same
    is_christian value: the verdicts are keyed by username. *)
Theorem same_username_same_verdict (E : env) (rem : remote) (data : list dict)
    (m e v : option str) (st : store) (r : result) (j1 j2 : nat) (it1 it2 : dict) :
  classify_profiles E rem data m e v st = Ok r →
  data !! j1 = Some it1 → data !! j2 = Some it2 →
  it1 !! s2l "username" = it2 !! s2l "username" →
  ∃ w, items_after r !! j1 = Some (<[s2l "is_christian" := PStr w]> it1) ∧
       items_after r !! j2 = Some (<[s2l "is_christian" := PStr w]> it2).
Proof.
  intros Hc H1 H2 Hu.
  destruct (classify_unfold _ _ _ _ _ _ _ _ Hc) as (q & ub & ui & q' & _ & _ & HF).
  destruct (Forall2_lookup_l _ _ _ _ _ HF H1) as (x1 & Hx1 & (u1 & Hu1 & ->)).
  destruct (Forall2_lookup_l _ _ _ _ _ HF H2) as (x2 & Hx2 & (u2 & Hu2 & ->)).
  assert (Hk : username_key it1 = username_key it2)
    by (unfold username_key, getitem; rewrite Hu; reflexivity).
  rewrite Hu1, Hu2 in Hk. injection Hk as <-.
  exists (qget q' u1 no). split; assumption.
Qed.

Lemma sub_non_word_chars (s : str) : Forall (λ c, (is_word c || is_ws c) = true) (sub_non_word s).
Proof.
  apply Forall_forall. intros c Hc. apply list_elem_of_In, in_map_iff in Hc as (d & <- & _).
  destruct (is_word d || is_ws d) eqn:H; [exact H|]. reflexivity.
Qed.

(** X7. For a batch of ASCII bios, every request sent to the model carries
    the current prompt, two newlines and the numbered list of the
    unresolved bios in input order, each bio cleaned: only word and
    whitespace characters, and stripped. *)
Theorem request_lists_clean_unresolved (E : env) (rem : remote) (data : list dict)
    (m e v : option str) (st : store) (r : result) :
  ascii_bios data →
  classify_profiles E rem data m e v st = Ok r →
  Forall (λ req, ∃ ub,
      req_input req = py_str (_current_prompt st) ++ nl ++ nl ++ build_payload ub ∧
      Forall2 (λ it b, ∃ bio, bio_of it = Ok bio ∧ b = strip (sub_non_word bio))
        (List.filter is_unresolved data) ub ∧
      Forall (λ b, Forall (λ c, (is_word c || is_ws c) = true) b ∧
                   (b = [] ∨ edges_non_ws b = true)) ub)
    (calls r).
Proof.
  intros _ Hc.
  destruct (classify_unfold _ _ _ _ _ _ _ _ Hc) as (q & ub & ui & q' & Hs & Hcase & _).
  destruct Hcase as [(_ & -> & _) | (_ & -> & _)]; [constructor|].
  constructor; [|constructor]. exists ub. split; [reflexivity|].
  pose proof (stage1_ub _ _ _ _ _ Hs) as H2. split; [exact H2|].
  clear -H2. induction H2 as [|it b its bs (bio & _ & ->) _ IH]; constructor; [|exact IH].
  split; [apply Forall_strip, sub_non_word_chars | apply strip_stripped].
Qed.

(** X8. After an update or a reset whose save succeeds, starting the module
    again from the saved file gives back the same prompt and criteria. *)
Theorem restart_after_update (ts c : str) (st : store) :
  startup (prompt_file (update_classification_prompt SaveOk ts c st).1) =
    (update_classification_prompt SaveOk ts c st).1 ∧
  startup (prompt_file (reset_to_default_prompt SaveOk ts st).1) =
    (reset_to_default_prompt SaveOk ts st).1.
Proof. split; reflexivity. Qed.

Lemma yes_usernames_from (items : list dict) (u : pyval) :
  u ∈ yes_usernames items → ∃ it, it ∈ items ∧ it !! s2l "username" = Some u.
Proof.
  induction items as [|it items IH]; cbn [yes_usernames]; intros H.
  - apply elem_of_nil in H. contradiction.
  - destruct (decide _); [destruct (it !! s2l "username") as [u'|] eqn:Hu|].
    + apply elem_of_cons in H as [->|H].
      * exists it. split; [left|exact Hu].
      * destruct (IH H) as (it' & Hin & Hu'). exists it'. split; [right; exact Hin|exact Hu'].
    + destruct (IH H) as (it' & Hin & Hu'). exists it'. split; [right; exact Hin|exact Hu'].
    + destruct (IH H) as (it' & Hin & Hu'). exists it'. split; [right; exact Hin|exact Hu'].
Qed.

Lemma classify_payload_ok (E : env) (rem : remote) (bios : list str) (st : store) :
  ∃ r, classify_profiles E rem (handler_payload bios) None None None st = Ok r ∧
    Forall (λ u, ∃ i, i < length bios ∧ u = PStr (show_nat i)) (returned r).
Proof.
  destruct (classify_spec E rem (handler_payload bios) None None None st (handler_payload_wf bios))
    as (q & ub & ui & r & q' & _ & Hc & _ & _ & _ & _ & H2 & Hret).
  exists r. split; [exact Hc|]. rewrite Hret. apply Forall_forall. intros u Hu.
  apply yes_usernames_from in Hu as (it' & Hin & Hu).
  apply list_elem_of_lookup in Hin as [i Hi].
  destruct (Forall2_lookup_r _ _ _ _ _ H2 Hi) as (it & Hit & (k & _ & ->)).
  rewrite lookup_insert_ne in Hu by apply is_christian_ne_username.
  unfold handler_payload in Hit. rewrite list_lookup_imap in Hit.
  destruct (bios !! i) as [b|] eqn:Hb; [|discriminate]. injection Hit as <-.
  exists i. split; [apply lookup_lt_Some in Hb; exact Hb|].
  rewrite lookup_insert_ne in Hu by discriminate. rewrite lookup_insert_eq in Hu.
  injection Hu as <-. reflexivity.
Qed.

(** X9. The /classify handler never raises from classification, with or
    without per-request criteria, and every returned id is the index of one
    of the posted bios. *)
Theorem classify_endpoint_total (E : env) (rem : remote) (bios : list str)
    (criteria : option str) (st : store) :
  ∃ r, (classify_handler (classify_profiles E rem (handler_payload bios) None None None)
          criteria st).2 = Ok r ∧
    Forall (λ u, ∃ i, i < length bios ∧ u = PStr (show_nat i)) (returned r).
Proof.
  unfold classify_handler.
  destruct criteria as [c|]; [destruct (override_given (Some c))|]; cbn [snd];
    apply classify_payload_ok.
Qed.

Lemma py_hash_exn (v : pyval) (e : string) : py_hash v = Exn e → e = "TypeError"%string.
Proof. destruct v as [| |b []|r t []]; cbn; congruence. Qed.

Lemma stage1_first_error (pre : list dict) (it : dict) (post : list dict) (i : nat) :
  Forall wf_item pre → ¬ wf_item it →
  stage1 i (pre ++ it :: post) =
    Exn (match it !! s2l "username", it !! s2l "bio" with
         | Some _, Some (POther _ true _) => "AttributeError"
         | Some _, Some _ => "TypeError"
         | _, _ => "KeyError"
         end).
Proof.
  intros Hpre Hit. revert i. induction Hpre as [|p pre [[k Hk] [b Hb]] _ IH]; intros i.
  - cbn [app stage1]. unfold getitem at 1.
    destruct (it !! s2l "username") as [u|] eqn:Hu; cbn [obind]; [|reflexivity].
    assert (Hw : ∀ b k, raw_bio it = Ok b → py_hash u = Ok k → False).
    { intros b k Hrb Hk. apply Hit. split; [|eexists; exact Hrb].
      exists k. unfold username_key, getitem. rewrite Hu. exact Hk. }
    unfold bio_of, raw_bio, getitem.
    unfold raw_bio, getitem in Hw.
    destruct (it !! s2l "bio") as [bv|] eqn:Hb; cbn [obind]; [|reflexivity].
    cbn [obind] in Hw.
    destruct bv as [s| |[|c b] mu|rp [|] h]; cbn [obind];
      first
        [ reflexivity
        | destruct (py_hash u) as [k|er] eqn:Hk; cbn [obind];
          [exfalso; exact (Hw _ _ eq_refl eq_refl)
          |apply py_hash_exn in Hk; subst er; reflexivity] ].
  - destruct (username_key_inv _ _ Hk) as (u & Hu & Hh).
    cbn [app stage1]. unfold getitem at 1. rewrite Hu. cbn [obind].
    unfold bio_of at 1. rewrite Hb. cbn [obind]. rewrite Hh. cbn [obind]. rewrite IH. reflexivity.
Qed.

(** X10. When every item before [it] is well formed and [it] is not, the
    call raises, before any request: [KeyError] when [it] lacks the
    username or bio key, [AttributeError] when its bio is a truthy value
    without [.strip()], and [TypeError] otherwise (a truthy [bytes] bio,
    which [re.sub] rejects, or an unhashable username). *)
Theorem classify_first_error (E : env) (rem : remote) (pre : list dict) (it : dict)
    (post : list dict) (m e v : option str) (st : store) :
  Forall wf_item pre → ¬ wf_item it →
  classify_profiles E rem (pre ++ it :: post) m e v st =
    Exn (match it !! s2l "username", it !! s2l "bio" with
         | Some _, Some (POther _ true _) => "AttributeError"
         | Some _, Some _ => "TypeError"
         | _, _ => "KeyError"
         end).
Proof.
  intros Hpre Hit. unfold classify_profiles. rewrite (stage1_first_error pre it post 0 Hpre Hit).
  reflexivity.
Qed.



(** X4. On an ASCII bio the stage-1 keyword test is case-insensitive:
    lowercasing the bio first does not change it. *)
Theorem stage1_case_insensitive (bio : str) :
  is_ascii bio = true →
  has_christian_keywords (lower bio) = has_christian_keywords bio.
Proof. intros _. apply has_keywords_lower. Qed.

Lemma stage1_case_insensitive_witness :
  is_ascii (s2l "GENESIS fan") = true ∧
  has_christian_keywords (lower (s2l "GENESIS fan")) = has_christian_keywords (s2l "GENESIS fan").
Proof.
  assert (H : is_ascii (s2l "GENESIS fan") = true) by reflexivity.
  split; [exact H|]. exact (stage1_case_insensitive (s2l "GENESIS fan") H).
Defined.

(** X5. On an ASCII bio the Bible-book pattern adds nothing to stage 1: the
    test equals the lowercase quick-keyword substring test alone. *)
Theorem bible_pattern_subsumed (bio : str) :
  is_ascii bio = true →
  has_christian_keywords bio = existsb (fun k => contains k (lower bio)) QUICK_KEYWORDS.
Proof. intros _. apply has_keywords_existsb. Qed.

Lemma bible_pattern_subsumed_witness :
  is_ascii (s2l "Romans 8:28") = true ∧
  has_christian_keywords (s2l "Romans 8:28") =
    existsb (fun k => contains k (lower (s2l "Romans 8:28"))) QUICK_KEYWORDS.
Proof.
  assert (H : is_ascii (s2l "Romans 8:28") = true) by reflexivity.
  split; [exact H|]. exact (bible_pattern_subsumed (s2l "Romans 8:28") H).
Defined.

(** X6. An ASCII text that stage 1 resolves stays resolved when any text
    is added on either side. *)
Theorem stage1_keyword_monotone (a s b : str) :
  is_ascii s = true →
  has_christian_keywords s = true → has_christian_keywords (a ++ s ++ b) = true.
Proof. intros _. apply has_keywords_infix. Qed.

Lemma stage1_keyword_monotone_witness :
  is_ascii (s2l "amen") = true ∧ has_christian_keywords (s2l "amen") = true ∧
  has_christian_keywords (s2l "I say " ++ s2l "amen" ++ s2l "!") = true.
Proof.
  assert (Ha : is_ascii (s2l "amen") = true) by reflexivity.
  assert (H : has_christian_keywords (s2l "amen") = true) by (vm_compute; reflexivity).
  split; [exact Ha|]. split; [exact H|].
  exact (stage1_keyword_monotone (s2l "I say ") (s2l "amen") (s2l "!") Ha H).
Defined.


Lemma stage2_tokens_align_witness :
  match classify_profiles sample_env remote_yes sample_data None None None sample_store with
  | Ok r => items_after r !! 1 = Some (<[s2l "is_christian" := PStr yes]> sample_item1)
  | Exn _ => False
  end.
Proof.
  destruct (classify_profiles sample_env remote_yes sample_data None None None sample_store)
    as [r|err] eqn:Hc; [|vm_compute in Hc; discriminate Hc].
  pose proof Hc as Hr. vm_compute in Hr. injection Hr as Hr.
  assert (Hcalls : calls r = [build_request sample_env (get_classification_prompt sample_store)
                                [s2l "just a dog mom"] None None None])
    by (rewrite <- Hr; vm_compute; reflexivity).
  refine (stage2_tokens_align sample_env remote_yes sample_data None None None sample_store r
           (build_request sample_env (get_classification_prompt sample_store)
              [s2l "just a dog mom"] None None None)
           (s2l " Yes ") Hc _ _ _ _ 1 sample_item1 (s2l "Yes") _ _ _).
  - vm_compute. repeat constructor; rewrite list_elem_of_In; cbn; intuition discriminate.
  - rewrite Hcalls. apply list_elem_of_singleton. reflexivity.
  - reflexivity.
  - vm_compute. reflexivity.
  - vm_compute. reflexivity.
  - exists (s2l "just a dog mom"). split; vm_compute; reflexivity.
  - vm_compute. reflexivity.
Defined.

Lemma stage1_yes_final_witness :
  match classify_profiles sample_env remote_fails sample_data None None None sample_store with
  | Ok r => items_after r !! 0 =
      Some (<[s2l "is_christian" := PStr yes]>
              (<[s2l "bio" := PStr (s2l "John 3:16 is my favorite verse")]>
                 (<[s2l "username" := PStr (s2l "0")]> ∅)))
  | Exn _ => False
  end.
Proof.
  destruct (classify_profiles sample_env remote_fails sample_data None None None sample_store)
    as [r|err] eqn:Hc; [|vm_compute in Hc; discriminate Hc].
  apply (stage1_yes_final sample_env remote_fails sample_data None None None sample_store r Hc).
  - vm_compute. repeat constructor; rewrite list_elem_of_In; cbn; intuition discriminate.
  - vm_compute. reflexivity.
  - exists (s2l "John 3:16 is my favorite verse"). split; vm_compute; reflexivity.
Defined.

Lemma same_username_same_verdict_witness :
  match classify_profiles sample_env remote_fails sample_dup_data None None None sample_store with
  | Ok r => ∃ w,
      items_after r !! 0 = Some (<[s2l "is_christian" := PStr w]>
        (<[s2l "bio" := PStr (s2l "amen")]> (<[s2l "username" := PStr (s2l "ana")]> ∅))) ∧
      items_after r !! 1 = Some (<[s2l "is_christian" := PStr w]>
        (<[s2l "bio" := PStr (s2l "just a dog mom")]> (<[s2l "username" := PStr (s2l "ana")]> ∅)))
  | Exn _ => False
  end.
Proof.
  destruct (classify_profiles sample_env remote_fails sample_dup_data None None None sample_store)
    as [r|err] eqn:Hc; [|vm_compute in Hc; discriminate Hc].
  apply (same_username_same_verdict sample_env remote_fails sample_dup_data None None None
           sample_store r 0 1 _ _ Hc); vm_compute; reflexivity.
Defined.

Lemma request_lists_clean_unresolved_witness :
  ascii_bios sample_data ∧
  match classify_profiles sample_env remote_yes sample_data None None None sample_store with
  | Ok r => Forall (λ req, ∃ ub,
      req_input req = py_str (_current_prompt sample_store) ++ nl ++ nl ++ build_payload ub ∧
      Forall2 (λ it b, ∃ bio, bio_of it = Ok bio ∧ b = strip (sub_non_word bio))
        (List.filter is_unresolved sample_data) ub ∧
      Forall (λ b, Forall (λ c, (is_word c || is_ws c) = true) b ∧
                   (b = [] ∨ edges_non_ws b = true)) ub)
    (calls r)
  | Exn _ => False
  end.
Proof.
  assert (Ha : ascii_bios sample_data).
  { repeat constructor; intros b Hb; vm_compute in Hb; injection Hb as <-; reflexivity. }
  split; [exact Ha|].
  destruct (classify_profiles sample_env remote_yes sample_data None None None sample_store)
    as [r|err] eqn:Hc; [|vm_compute in Hc; discriminate Hc].
  exact (request_lists_clean_unresolved sample_env remote_yes sample_data None None None
           sample_store r Ha Hc).
Defined.

Lemma classify_first_error_witness :
  Forall wf_item sample_data ∧ ¬ wf_item sample_bad_item ∧
  classify_profiles sample_env remote_fails (sample_data ++ sample_bad_item :: sample_data)
    None None None sample_store = Exn "AttributeError".
Proof.
  assert (Hbad : ¬ wf_item sample_bad_item) by (intros (_ & b & Hb); vm_compute in Hb; discriminate Hb).
  split; [apply handler_payload_wf|]. split; [exact Hbad|].
  rewrite (classify_first_error sample_env remote_fails sample_data sample_bad_item sample_data
             None None None sample_store (handler_payload_wf _) Hbad).
  vm_compute. reflexivity.
Defined.
